(** * The archive prelude of mongo-tools (common/archive/prelude.go)

    A shallow embedding of package [archive]'s prelude: the [Prelude]
    bookkeeping ([AddMetadata]), its wire format ([Write] / [Read]), the
    virtual directory tree ([PreludeExplorer]) and the read-side metadata
    accessor ([MetadataPreludeFile]).

    Conventions.
    - A Go [string] is a sequence of bytes: Rocq's [string].
    - A Go [[]byte] is a [list Z] of values in [0, 256); every operation
      that produces a byte wraps explicitly, as Go's [byte(...)] does.
    - Fixed-width integers are [Z] with the wrap-around written out
      ([uint32], [int32]).
    - A Go [map] that may be [nil] is an [option (gmap ...)].
    - A record ([*CollectionMetadata]) is its value; the flat sequence and
      the index hold the same records.
    - A Go [error] is its message; the nil error is [None].
    - [log.Logf] only writes to the log and is left out.

    What prelude.go takes from elsewhere.
    - The constants [MagicNumber] and [terminatorBytes] (archive.go) are
      parameters ([ArchiveConsts]).
    - [bson.Marshal] and [bson.Unmarshal] (mgo) are parameters ([BSON]);
      [BSONDocument] gives one codec, after the BSON format.
    - [io.Writer] is a class ([Writer]); an [io.Reader] over a stream is
      the list of bytes left in it.
    - [Parser.ReadBlock] (parser.go) is modelled from the specification.
    - [filepath.Join] is modelled for a slash-separated platform. *)

From Stdlib Require Import ZArith Lia List String Ascii.
From stdpp Require Import base option list gmap strings.

Import ListNotations.
Local Open Scope string_scope.
Local Open Scope Z_scope.
Local Open Scope list_scope.

(* ===================================================================== *)
(** ** Machine integers and bytes *)
(* ===================================================================== *)

Abbreviation bytes := (list Z) (only parsing).

(** [uint32(x)], [int32(x)] and [byte(x)]: Go's truncating conversions. *)
Definition uint32 (x : Z) : Z := x mod 2 ^ 32.
Definition int32 (x : Z) : Z := (x + 2 ^ 31) mod 2 ^ 32 - 2 ^ 31.
Definition byte (x : Z) : Z := x mod 2 ^ 8.

(** [x << k] on [uint32] operands. *)
Definition shl32 (x k : Z) : Z := uint32 (Z.shiftl x k).

Definition is_byte (b : Z) : Prop := 0 <= b < 256.
Definition is_int32 (x : Z) : Prop := - 2 ^ 31 <= x < 2 ^ 31.

(** the little-endian value of a byte sequence: the first byte counts
    least *)
Fixpoint le_value (bs : bytes) : Z :=
  match bs with
  | [] => 0
  | b :: rest => b + 256 * le_value rest
  end.

(** [s] starts with the bytes [pre] *)
Fixpoint has_prefix (pre s : bytes) : bool :=
  match pre, s with
  | [], _ => true
  | a :: pre', b :: s' => (a =? b) && has_prefix pre' s'
  | _ :: _, [] => false
  end.

(** Go's [error] values are built with [fmt.Errorf] from fixed texts. *)
Definition error := string.

Inductive result (A : Type) : Type :=
| Ok (a : A)
| Err (e : error).
Arguments Ok {A} a.
Arguments Err {A} e.

(* ===================================================================== *)
(** ** Data model *)
(* ===================================================================== *)

(** The struct declarations of [Header] and [CollectionMetadata] live in
    the package's archive.go; prelude.go uses the fields below
    ([NewPrelude], [AddMetadata], [Size], [ReadDir]).  The format version
    is kept as a string and the integer fields as [Z]. *)
Module Header.
Record t := mk {
  ArchiveFormatVersion : string;
  ConcurrentCollections : Z
}.
(** [&Header{}] *)
Definition zero : t := mk "" 0.
End Header.

Module CollectionMetadata.
Record t := mk {
  Database : string;
  Collection : string;
  Metadata : string;
  Size : Z
}.
(** [&CollectionMetadata{}] *)
Definition zero : t := mk "" "" "" 0.
End CollectionMetadata.

Global Instance Header_eq_dec : EqDecision Header.t.
Proof. solve_decision. Defined.

Global Instance CollectionMetadata_eq_dec : EqDecision CollectionMetadata.t.
Proof. solve_decision. Defined.

(** Constants of the package that prelude.go refers to but does not
    declare: the magic number (compared against an [int32]) and the
    terminator bytes. *)
Class ArchiveConsts := {
  MagicNumber : Z;
  terminatorBytes : bytes
}.

(** [gopkg.in/mgo.v2/bson]: [bson.Marshal(v)] returns the document or an
    error; [bson.Unmarshal(data, v)] updates [*v] in place and returns an
    error.  [Marshal_Header] takes the [*Header] as stored, possibly nil. *)
Class BSON := {
  Marshal_Header : option Header.t -> result bytes;
  Unmarshal_Header : bytes -> Header.t -> Header.t * option error;
  Marshal_CollectionMetadata : CollectionMetadata.t -> result bytes;
  Unmarshal_CollectionMetadata :
    bytes -> CollectionMetadata.t -> CollectionMetadata.t * option error
}.

(** [io.Writer]: [Write(p)] returns the error (the byte count is ignored
    by every caller here); the writer's new state is returned with it. *)
Class Writer (W : Type) := {
  io_Write : W -> bytes -> W * option error
}.

(** A [bytes.Buffer] used as a sink: appends, never fails. *)
Global Instance Buffer_Writer : Writer (list Z) := {
  io_Write buf p := (buf ++ p, None)
}.

Module Prelude.

Record t := mk {
  Header : option Header.t;
  DBS : list string;
  NamespaceMetadatas : list CollectionMetadata.t;
  NamespaceMetadatasByDB : option (gmap string (list CollectionMetadata.t))
}.

(** The zero value [Prelude{}]. *)
Definition empty : t := mk None [] [] None.

(** [v, ok := m[k]] on a possibly nil map. *)
Definition index (m : option (gmap string (list CollectionMetadata.t)))
    (db : string) : option (list CollectionMetadata.t) :=
  match m with
  | None => None
  | Some m => m !! db
  end.

(** [m[k]] on a possibly nil map: the zero value (nil slice) if absent. *)
Definition index_or_nil (m : option (gmap string (list CollectionMetadata.t)))
    (db : string) : list CollectionMetadata.t :=
  match index m db with
  | Some l => l
  | None => []
  end.

Definition AddMetadata (prelude : t) (cm : CollectionMetadata.t) : t :=
  let nms := NamespaceMetadatas prelude ++ [cm] in
  let byDB :=
    match NamespaceMetadatasByDB prelude with
    | None => ∅
    | Some m => m
    end in
  let dbs :=
    match byDB !! CollectionMetadata.Database cm with
    | Some _ => DBS prelude
    | None => DBS prelude ++ [CollectionMetadata.Database cm]
    end in
  let byDB' :=
    <[CollectionMetadata.Database cm :=
        index_or_nil (Some byDB) (CollectionMetadata.Database cm) ++ [cm]]> byDB in
  mk (Header prelude) dbs nms (Some byDB').

(** A run of [AddMetadata] calls, in order. *)
Definition AddMetadatas (prelude : t) (cms : list CollectionMetadata.t) : t :=
  fold_left AddMetadata cms prelude.

End Prelude.

(* ===================================================================== *)
(** ** path/filepath.Join *)
(* ===================================================================== *)

(** [filepath.Join] of the Go standard library on a slash-separated
    platform: the elements are joined with ['/'] and the result is
    cleaned lexically ([filepath.Clean]): empty and ["."] elements are
    dropped, an inner [".."] removes the element before it, [".."] at the
    start of a rooted path is dropped, and an empty result is ["."]. *)
Module filepath.

Definition Separator : ascii := "/"%char.

(** the path elements between separators, and whether the path is rooted *)
Fixpoint elements (cur : string) (path : string) : list string :=
  match path with
  | EmptyString => [cur]
  | String c rest =>
      if Ascii.eqb c Separator then cur :: elements "" rest
      else elements (cur ++ String c "")%string rest
  end.

(** [stack] holds the kept elements, last one first *)
Fixpoint clean_elements (rooted : bool) (stack : list string)
    (els : list string) : list string :=
  match els with
  | [] => rev stack
  | e :: els' =>
      if String.eqb e "" || String.eqb e "." then
        clean_elements rooted stack els'
      else if String.eqb e ".." then
        match stack with
        | top :: stack' =>
            if String.eqb top ".." then clean_elements rooted (e :: stack) els'
            else clean_elements rooted stack' els'
        | [] =>
            if rooted then clean_elements rooted [] els'
            else clean_elements rooted [e] els'
        end
      else clean_elements rooted (e :: stack) els'
  end.

Definition Clean (path : string) : string :=
  match path with
  | EmptyString => "."
  | String c _ =>
      let rooted := Ascii.eqb c Separator in
      let out := String.concat "/" (clean_elements rooted [] (elements "" path)) in
      if rooted then ("/" ++ out)%string
      else if String.eqb out "" then "." else out
  end.

Definition Join (a b : string) : string :=
  if String.eqb a "" then
    if String.eqb b "" then "" else Clean b
  else Clean (a ++ "/" ++ b)%string.

End filepath.

(* ===================================================================== *)
(** ** PreludeExplorer *)
(* ===================================================================== *)

Module PreludeExplorer.

Record t := mk {
  prelude : Prelude.t;
  database : string;
  collection : string;
  isMetadata : bool
}.

Definition NewPreludeExplorer (prelude : Prelude.t) : t :=
  mk prelude "" "" false.

Definition Name (pe : t) : string :=
  if String.eqb (collection pe) "" then database pe
  else if isMetadata pe then (collection pe ++ ".metadata.json")%string
  else (collection pe ++ ".bson")%string.

Definition Path (pe : t) : string :=
  if String.eqb (collection pe) "" then database pe
  else if String.eqb (database pe) "" then Name pe
  else filepath.Join (database pe) (Name pe).

Definition IsDir (pe : t) : bool := String.eqb (collection pe) "".

(** the [for ... range pe.prelude.NamespaceMetadatas] loop of [Size];
    [int64(ns.Size)] widens the field and keeps its value *)
Fixpoint Size_loop (nss : list CollectionMetadata.t) (pe : t) : Z :=
  match nss with
  | [] => 0
  | ns :: rest =>
      if String.eqb (CollectionMetadata.Database ns) (database pe)
         && String.eqb (CollectionMetadata.Collection ns) (collection pe)
      then CollectionMetadata.Size ns
      else Size_loop rest pe
  end.

Definition Size (pe : t) : Z :=
  if IsDir pe then 0
  else Size_loop (Prelude.NamespaceMetadatas (prelude pe)) pe.

Definition Stat (pe : t) : result t := Ok pe.

(** the two loops of [ReadDir] that emit a data entry and, when the
    metadata text is not empty, a metadata entry *)
Fixpoint namespace_entries (p : Prelude.t) (db : string)
    (nss : list CollectionMetadata.t) (pes : list t) : list t :=
  match nss with
  | [] => pes
  | ns :: rest =>
      let pes := pes ++ [mk p db (CollectionMetadata.Collection ns) false] in
      let pes :=
        if String.eqb (CollectionMetadata.Metadata ns) "" then pes
        else pes ++ [mk p db (CollectionMetadata.Collection ns) true] in
      namespace_entries p db rest pes
  end.

Fixpoint database_entries (p : Prelude.t) (dbs : list string)
    (pes : list t) : list t :=
  match dbs with
  | [] => pes
  | db :: rest => database_entries p rest (pes ++ [mk p db "" false])
  end.

Definition ReadDir (pe : t) : result (list t) :=
  if negb (IsDir pe) then Err "not a directory"
  else
    let pes := [] in
    if String.eqb (database pe) "" then
      let pes :=
        match Prelude.index (Prelude.NamespaceMetadatasByDB (prelude pe)) "" with
        | Some topLevelNamespaceMetadatas =>
            namespace_entries (prelude pe) "" topLevelNamespaceMetadatas pes
        | None => pes
        end in
      Ok (database_entries (prelude pe) (Prelude.DBS (prelude pe)) pes)
    else
      match Prelude.index (Prelude.NamespaceMetadatasByDB (prelude pe))
              (database pe) with
      | None => Err "no such directory"
      | Some namespaceMetadatas =>
          Ok (namespace_entries (prelude pe) (database pe) namespaceMetadatas pes)
      end.

Definition Parent (pe : t) : t :=
  if negb (String.eqb (collection pe) "") then mk (prelude pe) (database pe) "" false
  else mk (prelude pe) "" "" false.

End PreludeExplorer.

(* ===================================================================== *)
(** ** Prelude.Write *)
(* ===================================================================== *)

Section Write.
Context `{ArchiveConsts} `{BSON} {W : Type} `{Writer W}.

(** [magicNumberBytes[i] = byte(uint32(MagicNumber) >> uint(i*8))] *)
Definition magicNumberBytes : bytes :=
  map (fun i => byte (Z.shiftr (uint32 MagicNumber) (i * 8))) [0; 1; 2; 3].

(** the [for _, cm := range prelude.NamespaceMetadatas] loop *)
Fixpoint Write_loop (cms : list CollectionMetadata.t) (out : W)
    : W * option error :=
  match cms with
  | [] => (out, None)
  | cm :: rest =>
      match Marshal_CollectionMetadata cm with
      | Err err => (out, Some err)
      | Ok buf =>
          match io_Write out buf with
          | (out, Some err) => (out, Some err)
          | (out, None) => Write_loop rest out
          end
      end
  end.

Definition Write (prelude : Prelude.t) (out : W) : W * option error :=
  match io_Write out magicNumberBytes with
  | (out, Some err) => (out, Some err)
  | (out, None) =>
      match Marshal_Header (Prelude.Header prelude) with
      | Err err => (out, Some err)
      | Ok buf =>
          match io_Write out buf with
          | (out, Some err) => (out, Some err)
          | (out, None) =>
              match Write_loop (Prelude.NamespaceMetadatas prelude) out with
              | (out, Some err) => (out, Some err)
              | (out, None) =>
                  match io_Write out terminatorBytes with
                  | (out, Some err) => (out, Some err)
                  | (out, None) => (out, None)
                  end
              end
          end
      end
  end.

End Write.

(* ===================================================================== *)
(** ** The block parser and its consumer *)
(* ===================================================================== *)

(** An [io.Reader] over a byte stream is the list of bytes it still has
    to deliver.  [io.ReadAtLeast(in, buf, n)] with [len(buf) = n] takes
    exactly [n] bytes, or fails with [io.EOF] (nothing left) or
    [io.ErrUnexpectedEOF] (fewer than [n] left). *)
Definition io_ReadAtLeast (input : bytes) (n : nat)
    : bytes * bytes * option error :=
  if (n <=? length input)%nat then (take n input, drop n input, None)
  else match input with
       | [] => ([], [], Some "EOF")
       | _ => (input, [], Some "unexpected EOF")
       end.

(** The [ParserConsumer] interface, over the state [S] the consumer
    mutates ([End_] is its method [End]). *)
Record ParserConsumer (S : Type) := {
  HeaderBSON : bytes -> S -> S * option error;
  BodyBSON : bytes -> S -> S * option error;
  End_ : S -> S * option error
}.
Arguments HeaderBSON {S} _ _ _.
Arguments BodyBSON {S} _ _ _.
Arguments End_ {S} _ _.

Module Parser.
Section Parser.
Context `{ArchiveConsts}.

(** Modelled from the spec: the unit reader of the block parser
    (parser.go, not part of prelude.go).  The stream is "zero or more
    documents, each self-delimited" with "no length-prefix framing
    beyond BSON's own", closed by "a fixed reserved byte sequence": the
    next unit is the terminator ([None]) or one document ([Some]),
    whose first four bytes give, little-endian, its whole length. *)
Definition read_unit (input : bytes) : result (option bytes * bytes) :=
  if has_prefix terminatorBytes input then
    Ok (None, drop (length terminatorBytes) input)
  else if (4 <=? length input)%nat then
    let size := int32 (le_value (take 4 input)) in
    if (4 <=? size) && (size <=? Z.of_nat (length input)) then
      Ok (Some (take (Z.to_nat size) input), drop (Z.to_nat size) input)
    else Err "corrupt document length"
  else Err "unexpected EOF".

(** Modelled from the spec: the body loop of the block parser: "on
    each body callback" one document goes to [BodyBSON]; the terminator
    is the "end-of-sequence" and goes to [End].  A callback's error
    ends the block and is returned.  Every document takes at least
    four bytes, so [fuel] beyond the length of the stream is never
    used up. *)
Fixpoint read_bodies {S : Type} (fuel : nat) (consumer : ParserConsumer S)
    (input : bytes) (s : S) : S * bytes * option error :=
  match fuel with
  | O => (s, input, Some "block too long")
  | Datatypes.S fuel =>
      match read_unit input with
      | Err err => (s, input, Some err)
      | Ok (None, rest) =>
          let '(s, err) := End_ consumer s in (s, rest, err)
      | Ok (Some data, rest) =>
          match BodyBSON consumer data s with
          | (s, Some err) => (s, rest, Some err)
          | (s, None) => read_bodies fuel consumer rest s
          end
      end
  end.

(** Modelled from the spec: [Parser.ReadBlock] (parser.go, not part of
    prelude.go): "read one block and dispatch to {header, body, end}
    callback".  The first document of the block is the header; a block
    that starts with the terminator has no header and is refused. *)
Definition ReadBlock {S : Type} (consumer : ParserConsumer S)
    (input : bytes) (s : S) : S * bytes * option error :=
  match read_unit input with
  | Err err => (s, input, Some err)
  | Ok (None, rest) => (s, rest, Some "block without a header")
  | Ok (Some data, rest) =>
      match HeaderBSON consumer data s with
      | (s, Some err) => (s, rest, Some err)
      | (s, None) => read_bodies (Datatypes.S (length rest)) consumer rest s
      end
  end.

End Parser.
End Parser.

(* ===================================================================== *)
(** ** Prelude.Read *)
(* ===================================================================== *)

Section Read.
Context `{ArchiveConsts} `{BSON}.

(** [preludeParserConsumer]: the state is the wrapped [*Prelude]. *)
Definition preludeParserConsumer : ParserConsumer Prelude.t := {|
  HeaderBSON data prelude :=
    let '(header, err) := Unmarshal_Header data Header.zero in
    let prelude :=
      Prelude.mk (Some header) (Prelude.DBS prelude)
        (Prelude.NamespaceMetadatas prelude)
        (Prelude.NamespaceMetadatasByDB prelude) in
    (prelude, err);
  BodyBSON data prelude :=
    match Unmarshal_CollectionMetadata data CollectionMetadata.zero with
    | (_, Some err) => (prelude, Some err)
    | (cm, None) => (Prelude.AddMetadata prelude cm, None)
    end;
  End_ prelude := (prelude, None)
|}.

(** lines 54-59: the four bytes read, as an [int32] *)
Definition magicNumberOf (magicNumberBuf : bytes) : Z :=
  int32
    (Z.lor
       (Z.lor
          (Z.lor (shl32 (uint32 (nth 0 magicNumberBuf 0)) 0)
                 (shl32 (uint32 (nth 1 magicNumberBuf 0)) 8))
          (shl32 (uint32 (nth 2 magicNumberBuf 0)) 16))
       (shl32 (uint32 (nth 3 magicNumberBuf 0)) 24)).

Definition Read (prelude : Prelude.t) (input : bytes)
    : Prelude.t * bytes * option error :=
  match io_ReadAtLeast input 4 with
  | (_, input, Some err) => (prelude, input, Some err)
  | (magicNumberBuf, input, None) =>
      let magicNumber := magicNumberOf magicNumberBuf in
      if negb (magicNumber =? MagicNumber) then
        (prelude, input,
         Some "stream or file does not apear to be a mongodump archive")
      else
        let prelude :=
          match Prelude.NamespaceMetadatasByDB prelude with
          | Some _ =>
              Prelude.mk (Prelude.Header prelude) (Prelude.DBS prelude)
                (Prelude.NamespaceMetadatas prelude) (Some ∅)
          | None => prelude
          end in
        Parser.ReadBlock preludeParserConsumer input prelude
  end.

End Read.

(* ===================================================================== *)
(** ** MetadataPreludeFile *)
(* ===================================================================== *)

(** [intents.Intent]: the two fields [Open] reads. *)
Module Intent.
Record t := mk { DB : string; C : string }.
End Intent.

Module MetadataPreludeFile.

(** [Buffer] is the embedded [*bytes.Buffer]: [None] is nil, [Some s]
    a buffer whose unread content is [s]. *)
Record t := mk {
  Intent : Intent.t;
  Prelude : Prelude.t;
  Buffer : option string
}.

(** the [for _, metadata := range dbMetadatas] loop of [Open] *)
Fixpoint Open_loop (dbMetadatas : list CollectionMetadata.t) (mpf : t)
    : t * option error :=
  match dbMetadatas with
  | [] => (mpf, Some "so such file")
  | metadata :: rest =>
      if String.eqb (CollectionMetadata.Collection metadata) (Intent.C (Intent mpf))
      then (mk (Intent mpf) (Prelude mpf)
               (Some (CollectionMetadata.Metadata metadata)), None)
      else Open_loop rest mpf
  end.

Definition Open (mpf : t) : t * option error :=
  if String.eqb (Intent.C (Intent mpf)) "" then (mpf, Some "so such file")
  else
    match Prelude.index (Prelude.NamespaceMetadatasByDB (Prelude mpf))
            (Intent.DB (Intent mpf)) with
    | None => (mpf, Some "so such file")
    | Some dbMetadatas => Open_loop dbMetadatas mpf
    end.

Definition Close (mpf : t) : t * option error :=
  (mk (Intent mpf) (Prelude mpf) None, None).

End MetadataPreludeFile.

(* ===================================================================== *)
(** ** A concrete instance of the environment *)
(* ===================================================================== *)

(** The published constants of the mongodump archive format: the magic
    number 0x8199e26d (as an [int32]) and the terminator 0xFFFFFFFF. *)
Definition mongodump_consts : ArchiveConsts := {|
  MagicNumber := -2120621459;
  terminatorBytes := [255; 255; 255; 255]
|}.

(** A BSON codec for the two structs, after the BSON format: a document
    is its [int32] length, its elements and a closing zero byte; an
    element is a type byte (2: string, 16: int32, 18: int64), its key as
    a C string, and its value; a string value is its [int32] length (the
    closing zero included), its bytes and a zero byte.  Keys are the
    lower-cased field names, as mgo derives them. *)
Module BSONDocument.

Fixpoint le_bytes (n : nat) (x : Z) : bytes :=
  match n with
  | O => []
  | S n => byte x :: le_bytes n (Z.shiftr x 8)
  end.

Definition signed (bits : Z) (x : Z) : Z :=
  if x <? 2 ^ (bits - 1) then x else x - 2 ^ bits.

Definition string_bytes (s : string) : bytes :=
  map (fun c => Z.of_N (N_of_ascii c)) (list_ascii_of_string s).

Definition bytes_string (bs : bytes) : string :=
  string_of_list_ascii (map (fun b => ascii_of_N (Z.to_N b)) bs).

Definition cstring (s : string) : bytes := string_bytes s ++ [0].

Inductive value :=
| VString (s : string)
| VInt (x : Z).

Definition element (key : string) (v : value) : bytes :=
  match v with
  | VString s =>
      [2] ++ cstring key
          ++ le_bytes 4 (Z.of_nat (length (string_bytes s)) + 1)
          ++ string_bytes s ++ [0]
  | VInt x =>
      if (- 2 ^ 31 <=? x) && (x <? 2 ^ 31)
      then [16] ++ cstring key ++ le_bytes 4 x
      else [18] ++ cstring key ++ le_bytes 8 x
  end.

Definition document (fields : list (string * value)) : bytes :=
  let body := concat (map (fun kv => element (fst kv) (snd kv)) fields) in
  le_bytes 4 (Z.of_nat (length body) + 5) ++ body ++ [0].

(** decoding *)
Fixpoint read_cstring (bs : bytes) : option (bytes * bytes) :=
  match bs with
  | [] => None
  | b :: rest =>
      if b =? 0 then Some ([], rest)
      else match read_cstring rest with
           | Some (s, rest') => Some (b :: s, rest')
           | None => None
           end
  end.

Definition read_value (ty : Z) (bs : bytes) : option (value * bytes) :=
  if ty =? 2 then
    let n := Z.to_nat (le_value (take 4 bs)) in
    let payload := take n (drop 4 bs) in
    if (4 <=? length bs)%nat && (1 <=? n)%nat
       && (length payload =? n)%nat && (List.last payload 1 =? 0) then
      Some (VString (bytes_string (take (n - 1) payload)), drop (4 + n) bs)
    else None
  else if ty =? 16 then
    if (4 <=? length bs)%nat
    then Some (VInt (signed 32 (le_value (take 4 bs))), drop 4 bs)
    else None
  else if ty =? 18 then
    if (8 <=? length bs)%nat
    then Some (VInt (signed 64 (le_value (take 8 bs))), drop 8 bs)
    else None
  else None.

Fixpoint read_elements (fuel : nat) (bs : bytes)
    : option (list (string * value)) :=
  match fuel with
  | O => None
  | S fuel =>
      match bs with
      | [] => None
      | [b] => if b =? 0 then Some [] else None
      | ty :: rest =>
          match read_cstring rest with
          | None => None
          | Some (key, rest) =>
              match read_value ty rest with
              | None => None
              | Some (v, rest) =>
                  match read_elements fuel rest with
                  | None => None
                  | Some fields => Some ((bytes_string key, v) :: fields)
                  end
              end
          end
      end
  end.

Definition parse (data : bytes) : option (list (string * value)) :=
  if (5 <=? length data)%nat
     && (le_value (take 4 data) =? Z.of_nat (length data))
  then read_elements (length data) (drop 4 data)
  else None.

Definition set_Header (h : Header.t) (kv : string * value) : Header.t :=
  match kv with
  | (key, VString s) =>
      if String.eqb key "archiveformatversion"
      then Header.mk s (Header.ConcurrentCollections h) else h
  | (key, VInt x) =>
      if String.eqb key "concurrentcollections"
      then Header.mk (Header.ArchiveFormatVersion h) x else h
  end.

Definition set_CollectionMetadata (cm : CollectionMetadata.t)
    (kv : string * value) : CollectionMetadata.t :=
  match kv with
  | (key, VString s) =>
      if String.eqb key "database" then
        CollectionMetadata.mk s (CollectionMetadata.Collection cm)
          (CollectionMetadata.Metadata cm) (CollectionMetadata.Size cm)
      else if String.eqb key "collection" then
        CollectionMetadata.mk (CollectionMetadata.Database cm) s
          (CollectionMetadata.Metadata cm) (CollectionMetadata.Size cm)
      else if String.eqb key "metadata" then
        CollectionMetadata.mk (CollectionMetadata.Database cm)
          (CollectionMetadata.Collection cm) s (CollectionMetadata.Size cm)
      else cm
  | (key, VInt x) =>
      if String.eqb key "size" then
        CollectionMetadata.mk (CollectionMetadata.Database cm)
          (CollectionMetadata.Collection cm) (CollectionMetadata.Metadata cm) x
      else cm
  end.

(** the fields of the two structs, in declaration order *)
Definition Header_fields (h : Header.t) : list (string * value) :=
  [("archiveformatversion", VString (Header.ArchiveFormatVersion h));
   ("concurrentcollections", VInt (Header.ConcurrentCollections h))].

Definition CollectionMetadata_fields (cm : CollectionMetadata.t)
    : list (string * value) :=
  [("database", VString (CollectionMetadata.Database cm));
   ("collection", VString (CollectionMetadata.Collection cm));
   ("metadata", VString (CollectionMetadata.Metadata cm));
   ("size", VInt (CollectionMetadata.Size cm))].

Definition codec : BSON := {|
  Marshal_Header h :=
    match h with
    | None => Err "Can't marshal nil as a BSON document"
    | Some h => Ok (document (Header_fields h))
    end;
  Unmarshal_Header data h :=
    match parse data with
    | None => (h, Some "Document is corrupted")
    | Some fields => (fold_left set_Header fields h, None)
    end;
  Marshal_CollectionMetadata cm := Ok (document (CollectionMetadata_fields cm));
  Unmarshal_CollectionMetadata data cm :=
    match parse data with
    | None => (cm, Some "Document is corrupted")
    | Some fields => (fold_left set_CollectionMetadata fields cm, None)
    end
|}.

(** a value the codec can write and read back *)
Definition encodable (v : value) : Prop :=
  match v with
  | VString s => Z.of_nat (String.length s) + 1 < 2 ^ 32
  | VInt x => - 2 ^ 63 <= x < 2 ^ 63
  end.

(** a key that holds no zero byte *)
Definition plain_key (key : string) : Prop :=
  forallb (fun b => negb (b =? 0)) (string_bytes key) = true.

End BSONDocument.

(* ===================================================================== *)
(** ** Vocabulary of the properties *)
(* ===================================================================== *)

(** the record has the database and the collection of the entry *)
Definition names (pe : PreludeExplorer.t) (ns : CollectionMetadata.t) : Prop :=
  CollectionMetadata.Database ns = PreludeExplorer.database pe
  /\ CollectionMetadata.Collection ns = PreludeExplorer.collection pe.

(** the records of database [db] in a sequence, in their order *)
Definition of_database (db : string) (l : list CollectionMetadata.t)
    : list CollectionMetadata.t :=
  filter (fun cm => CollectionMetadata.Database cm = db) l.

(** the by-database group that a flat sequence determines *)
Definition group_of (db : string) (l : list CollectionMetadata.t)
    : option (list CollectionMetadata.t) :=
  match of_database db l with
  | [] => None
  | g => Some g
  end.

(** each name once, in the order of first appearance *)
Fixpoint first_seen (l : list string) : list string :=
  match l with
  | [] => []
  | x :: l' => x :: filter (fun y => y <> x) (first_seen l')
  end.

(** a Prelude that holds no record: the zero value, or the one
    [NewPrelude] starts from (an empty, non-nil index) *)
Definition holds_nothing (p : Prelude.t) : Prop :=
  Prelude.DBS p = [] /\ Prelude.NamespaceMetadatas p = []
  /\ forall db, Prelude.index (Prelude.NamespaceMetadatasByDB p) db = None.

(** the index of [p] is the grouping of the sequence [l] *)
Definition indexes (p : Prelude.t) (l : list CollectionMetadata.t) : Prop :=
  forall db,
    Prelude.index (Prelude.NamespaceMetadatasByDB p) db = group_of db l.

(** the two views agree: the index is the grouping of the flat sequence
    and the database list is its databases in first-seen order *)
Definition dual_view (p : Prelude.t) : Prop :=
  indexes p (Prelude.NamespaceMetadatas p)
  /\ Prelude.DBS p
     = first_seen (map CollectionMetadata.Database (Prelude.NamespaceMetadatas p)).

(** the entries one record gives in a listing: its data entry and, when
    its metadata text is not empty, its metadata entry *)
Definition listing (p : Prelude.t) (db : string) (ns : CollectionMetadata.t)
    : list PreludeExplorer.t :=
  PreludeExplorer.mk p db (CollectionMetadata.Collection ns) false
  :: (if String.eqb (CollectionMetadata.Metadata ns) "" then []
      else [PreludeExplorer.mk p db (CollectionMetadata.Collection ns) true]).

(** the directory entry of a database *)
Definition directory (p : Prelude.t) (db : string) : PreludeExplorer.t :=
  PreludeExplorer.mk p db "" false.

Section Sink.
Context {W : Type} {writer : Writer W}.

(** the writer after the chunks were handed to it one after the other *)
Definition written (out : W) (chunks : list (list Z)) : W :=
  fold_left (fun out chunk => fst (io_Write out chunk)) chunks out.

(** the writer takes every one of the chunks, in order, without error *)
Fixpoint accepts (out : W) (chunks : list (list Z)) : Prop :=
  match chunks with
  | [] => True
  | chunk :: chunks =>
      snd (io_Write out chunk) = None /\ accepts (fst (io_Write out chunk)) chunks
  end.

(** the chunks written in order, up to and including the first write
    that fails, whose error is returned *)
Fixpoint emit (out : W) (chunks : list (list Z)) : W * option error :=
  match chunks with
  | [] => (out, None)
  | chunk :: chunks =>
      match io_Write out chunk with
      | (out, Some err) => (out, Some err)
      | (out, None) => emit out chunks
      end
  end.

End Sink.

Section Codec.
Context {consts : ArchiveConsts} {codec : BSON}.

(** a document the block parser can delimit: its first four bytes are
    its length as a little-endian [int32], and it does not start with
    the terminator *)
Definition framed (doc : list Z) : Prop :=
  (4 <= length doc)%nat
  /\ int32 (le_value (take 4 doc)) = Z.of_nat (length doc)
  /\ (length terminatorBytes <= length doc)%nat
  /\ has_prefix terminatorBytes doc = false.

(** the codec encodes the header as a framed document and decodes that
    document, into a zero [Header], to the same header *)
Definition header_round_trips (h : Header.t) : Prop :=
  exists doc,
    Marshal_Header (Some h) = Ok doc /\ framed doc
    /\ Unmarshal_Header doc Header.zero = (h, None).

(** the same for a record *)
Definition record_round_trips (cm : CollectionMetadata.t) : Prop :=
  exists doc,
    Marshal_CollectionMetadata cm = Ok doc /\ framed doc
    /\ Unmarshal_CollectionMetadata doc CollectionMetadata.zero = (cm, None).

End Codec.

Section Stream.
Context {consts : ArchiveConsts} {codec : BSON}.

(** the record that [bson.Unmarshal] makes of a document, starting from a
    zero [CollectionMetadata], and whether it does so without error *)
Definition decoded (doc : bytes) : CollectionMetadata.t :=
  fst (Unmarshal_CollectionMetadata doc CollectionMetadata.zero).

Definition decodes (doc : bytes) : bool :=
  match snd (Unmarshal_CollectionMetadata doc CollectionMetadata.zero) with
  | None => true
  | Some _ => false
  end.

(** the documents at the front of a stream of body documents, up to the
    first unit that is not a document that decodes; every document takes
    at least four bytes, so [fuel] beyond the length of the stream is
    never used up *)
Fixpoint body_documents (fuel : nat) (input : bytes) : list bytes :=
  match fuel with
  | O => []
  | S fuel =>
      match Parser.read_unit input with
      | Ok (Some doc, rest) =>
          if decodes doc then doc :: body_documents fuel rest else []
      | _ => []
      end
  end.

(** the body documents of an archive stream that reach the Prelude: those
    behind the magic number and a header document that decodes *)
Definition stored_documents (input : bytes) : list bytes :=
  if (4 <=? length input)%nat && (magicNumberOf (take 4 input) =? MagicNumber)
  then
    match Parser.read_unit (drop 4 input) with
    | Ok (Some hdoc, rest) =>
        match snd (Unmarshal_Header hdoc Header.zero) with
        | None => body_documents (S (length rest)) rest
        | Some _ => []
        end
    | _ => []
    end
  else [].

End Stream.

(* ===================================================================== *)
(** ** Sample data *)
(* ===================================================================== *)

(** three records of one database, two of them of the same collection *)
Definition sized_prelude : Prelude.t :=
  Prelude.AddMetadatas Prelude.empty
    [CollectionMetadata.mk "db1" "c0" "" 7;
     CollectionMetadata.mk "db1" "c1" "{}" 42;
     CollectionMetadata.mk "db1" "c1" "" 9].

Definition sample_accessor (db c : string) : MetadataPreludeFile.t :=
  MetadataPreludeFile.mk (Intent.mk db c) sized_prelude None.

(** two databases; db1 holds c1, with metadata, and c2, without *)
Definition tree_prelude : Prelude.t :=
  Prelude.AddMetadatas Prelude.empty
    [CollectionMetadata.mk "db1" "c1" "{}" 10;
     CollectionMetadata.mk "db2" "c3" "" 20;
     CollectionMetadata.mk "db1" "c2" "" 30].

(** a dump of one collection and a top-level oplog *)
Definition oplog_prelude : Prelude.t :=
  Prelude.AddMetadatas Prelude.empty
    [CollectionMetadata.mk "db1" "c1" "" 10;
     CollectionMetadata.mk "" "oplog" "" 20].

(** a Prelude as [NewPrelude] builds it *)
Definition archived_header : Header.t := Header.mk "0.1" 4.

Definition archived_records : list CollectionMetadata.t :=
  [CollectionMetadata.mk "db1" "c1" "{}" 10;
   CollectionMetadata.mk "db2" "c3" "" 5000000000;
   CollectionMetadata.mk "db1" "c2" "" 30;
   CollectionMetadata.mk "" "oplog" "" 0].

Definition archived_prelude : Prelude.t :=
  Prelude.AddMetadatas (Prelude.mk (Some archived_header) [] [] (Some ∅))
    archived_records.

(** an [io.Writer] with room for a fixed number of bytes: a write that
    does not fit stores what fits and fails, as a short write does *)
Global Instance Limited_Writer : Writer (nat * list Z) := {
  io_Write out p :=
    if (length p <=? fst out)%nat
    then ((fst out - length p)%nat, snd out ++ p, None)
    else (O, snd out ++ take (fst out) p, Some "short write")
}.

(* ===================================================================== *)
(** ** The write-side metadata file and NewPrelude *)
(* ===================================================================== *)

(** [Metadata]: the embedded [*bytes.Buffer] ([None] is nil) and the
    intent it belongs to.  [Open] and [Close] do nothing. *)
Module Metadata.

Record t := mk {
  Buffer : option string;
  Intent : Intent.t
}.

Definition Open (md : t) : t * option error := (md, None).

Definition Close (md : t) : t * option error := (md, None).

(** [md.Buffer.String()]: the unread content; Go's [bytes.Buffer] gives
    the text ["<nil>"] for a nil buffer. *)
Definition Buffer_String (md : t) : string :=
  match Buffer md with
  | Some s => s
  | None => "<nil>"
  end.

End Metadata.

(** The dynamic type of an [intents.file] value: the two types of this
    package that implement the interface, or any other type.  A value of
    type [*Metadata] holds a pointer, which may be nil ([None]): such an
    interface value is not nil itself. *)
Inductive file : Type :=
| ArchiveMetadata (md : option Metadata.t)
| PreludeFile (mpf : MetadataPreludeFile.t)
| OtherFile.

(** A call either returns its results or panics with a run-time error. *)
Inductive run (A : Type) : Type :=
| Returned (a : A)
| Panicked (msg : string).
Arguments Returned {A} a.
Arguments Panicked {A} msg.

(** the run-time error of a field access through a nil pointer *)
Definition nil_dereference : string :=
  "runtime error: invalid memory address or nil pointer dereference".

(** An [intents.Intent] as [NewPrelude] reads it: [DB], [C] and
    [MetadataFile], which may be nil. *)
Module ManagedIntent.
Record t := mk {
  DB : string;
  C : string;
  MetadataFile : option file
}.
End ManagedIntent.

(** The constant [archiveFormatVersion] of the package, which prelude.go
    refers to but does not declare. *)
Class ArchiveVersion := {
  archiveFormatVersion : string
}.

Section NewPrelude.
Context {version : ArchiveVersion}.

(** the [for _, intent := range allIntents] loop of [NewPrelude]; the
    type assertion succeeds for a nil [*Metadata] too, and
    [archiveMetadata.Buffer] then reads a field through the nil pointer *)
Fixpoint NewPrelude_loop (allIntents : list ManagedIntent.t) (prelude : Prelude.t)
    : run (result Prelude.t) :=
  match allIntents with
  | [] => Returned (Ok prelude)
  | intent :: rest =>
      match ManagedIntent.MetadataFile intent with
      | Some metadataFile =>
          match metadataFile with
          | ArchiveMetadata (Some archiveMetadata) =>
              NewPrelude_loop rest
                (Prelude.AddMetadata prelude
                   (CollectionMetadata.mk (ManagedIntent.DB intent)
                      (ManagedIntent.C intent)
                      (Metadata.Buffer_String archiveMetadata) 0))
          | ArchiveMetadata None => Panicked nil_dereference
          | _ => Returned (Err "MetadataFile is not an archive.Metadata")
          end
      | None =>
          NewPrelude_loop rest
            (Prelude.AddMetadata prelude
               (CollectionMetadata.mk (ManagedIntent.DB intent)
                  (ManagedIntent.C intent) "" 0))
      end
  end.

(** [NewPrelude(manager, maxProcs)], with [allIntents] the slice that
    [manager.Intents()] returns *)
Definition NewPrelude (allIntents : list ManagedIntent.t) (maxProcs : Z)
    : run (result Prelude.t) :=
  let prelude :=
    Prelude.mk (Some (Header.mk archiveFormatVersion (int32 maxProcs)))
      [] [] (Some ∅) in
  NewPrelude_loop allIntents prelude.

End NewPrelude.

(* ===================================================================== *)
(** ** Vocabulary of the further properties *)
(* ===================================================================== *)

(** [NewPrelude] can take the intent: it has no metadata file, or one of
    type [*Metadata] that is not a nil pointer *)
Definition archivable (intent : ManagedIntent.t) : Prop :=
  match ManagedIntent.MetadataFile intent with
  | None | Some (ArchiveMetadata (Some _)) => True
  | Some _ => False
  end.

(** the record [NewPrelude] makes of an archivable intent *)
Definition record_of (intent : ManagedIntent.t) : CollectionMetadata.t :=
  CollectionMetadata.mk (ManagedIntent.DB intent) (ManagedIntent.C intent)
    match ManagedIntent.MetadataFile intent with
    | Some (ArchiveMetadata (Some md)) => Metadata.Buffer_String md
    | _ => ""
    end
    0.

(** the record is of the namespace [db].[c] *)
Definition of_namespace (db c : string) (cm : CollectionMetadata.t) : Prop :=
  CollectionMetadata.Database cm = db /\ CollectionMetadata.Collection cm = c.

(** the entries that [ReadDir] reaches from the root of [p] *)
Inductive reachable (p : Prelude.t) : PreludeExplorer.t -> Prop :=
| reachable_root : reachable p (PreludeExplorer.NewPreludeExplorer p)
| reachable_entry (pe e : PreludeExplorer.t) (entries : list PreludeExplorer.t) :
    reachable p pe ->
    PreludeExplorer.ReadDir pe = Ok entries ->
    e ∈ entries ->
    reachable p e.

(** the string holds no path separator *)
Definition slashless (s : string) : Prop :=
  forallb (fun c => negb (Ascii.eqb c filepath.Separator))
    (list_ascii_of_string s) = true.

(** one call that a parser makes on the consumer *)
Inductive callback : Type :=
| OnHeader (data : bytes)
| OnBody (data : bytes)
| OnEnd.

Section Callbacks.
Context `{ArchiveConsts} `{BSON}.

Definition run_callback (c : callback) (prelude : Prelude.t)
    : Prelude.t * option error :=
  match c with
  | OnHeader data => HeaderBSON preludeParserConsumer data prelude
  | OnBody data => BodyBSON preludeParserConsumer data prelude
  | OnEnd => End_ preludeParserConsumer prelude
  end.

(** the Prelude after a run of calls, whether they fail or not *)
Definition run_callbacks (cs : list callback) (prelude : Prelude.t) : Prelude.t :=
  fold_left (fun prelude c => fst (run_callback c prelude)) cs prelude.

End Callbacks.

(** how many of the calls are [BodyBSON] calls *)
Fixpoint body_calls (cs : list callback) : nat :=
  match cs with
  | [] => O
  | OnBody _ :: cs => S (body_calls cs)
  | _ :: cs => body_calls cs
  end.

(** samples *)
Definition version_0_1 : ArchiveVersion := {| archiveFormatVersion := "0.1" |}.

Definition dumped_intents : list ManagedIntent.t :=
  [ManagedIntent.mk "db1" "c1"
     (Some (ArchiveMetadata
              (Some (Metadata.mk (Some "{}") (Intent.mk "db1" "c1")))));
   ManagedIntent.mk "db2" "c3" None;
   ManagedIntent.mk "db1" "c2"
     (Some (ArchiveMetadata
              (Some (Metadata.mk (Some "") (Intent.mk "db1" "c2")))))].

(* ===================================================================== *)
(** * Properties *)
(* ===================================================================== *)

(** ** Strings *)

Lemma eqb_empty_true (s : string) : String.eqb s "" = true <-> s = "".
Proof. apply String.eqb_eq. Qed.

Lemma eqb_empty_false (s : string) : String.eqb s "" = false <-> s <> "".
Proof. apply String.eqb_neq. Qed.

(** ** PreludeExplorer: names and paths *)

(** C8 (path and name synthesis).  The entry with database "db1" and
    collection "c1" is named "c1.bson" with path "db1/c1.bson", and its
    metadata variant is named "c1.metadata.json".  In general an entry
    without a collection has its database name as name and as path, and
    an entry with a collection but no database has its name as path. *)
Theorem path_name_synthesis (p : Prelude.t) :
  PreludeExplorer.Name (PreludeExplorer.mk p "db1" "c1" false) = "c1.bson"
  /\ PreludeExplorer.Path (PreludeExplorer.mk p "db1" "c1" false) = "db1/c1.bson"
  /\ PreludeExplorer.Name (PreludeExplorer.mk p "db1" "c1" true) = "c1.metadata.json"
  /\ PreludeExplorer.Path (PreludeExplorer.mk p "db1" "c1" true)
     = "db1/c1.metadata.json"
  /\ (forall pe : PreludeExplorer.t,
        PreludeExplorer.collection pe = "" ->
        PreludeExplorer.Name pe = PreludeExplorer.database pe
        /\ PreludeExplorer.Path pe = PreludeExplorer.database pe)
  /\ (forall pe : PreludeExplorer.t,
        PreludeExplorer.database pe = "" ->
        PreludeExplorer.collection pe <> "" ->
        PreludeExplorer.Path pe = PreludeExplorer.Name pe).
Proof.
  do 4 (split; [reflexivity|]). split.
  - intros pe Hc. unfold PreludeExplorer.Name, PreludeExplorer.Path.
    now rewrite Hc.
  - intros pe Hdb Hc. unfold PreludeExplorer.Path.
    apply eqb_empty_false in Hc. rewrite Hc.
    now rewrite Hdb, String.eqb_refl.
Qed.

Lemma path_name_synthesis_witness :
  let oplog := PreludeExplorer.mk Prelude.empty "" "oplog" false in
  let db := PreludeExplorer.mk Prelude.empty "db1" "" false in
  PreludeExplorer.Path oplog = "oplog.bson"
  /\ PreludeExplorer.Name db = "db1" /\ PreludeExplorer.Path db = "db1".
Proof.
  destruct (path_name_synthesis Prelude.empty) as (_ & _ & _ & _ & Hdir & Htop).
  split.
  - rewrite (Htop (PreludeExplorer.mk Prelude.empty "" "oplog" false));
      [reflexivity | reflexivity | discriminate].
  - apply (Hdir (PreludeExplorer.mk Prelude.empty "db1" "" false)). reflexivity.
Defined.

(** With both a database and a collection the path is the join of the
    database and the name; for plain names that is [database/name]. *)
Lemma Path_joined (pe : PreludeExplorer.t) :
  PreludeExplorer.collection pe <> "" ->
  PreludeExplorer.database pe <> "" ->
  PreludeExplorer.Path pe
  = filepath.Join (PreludeExplorer.database pe) (PreludeExplorer.Name pe).
Proof.
  intros Hc Hd. unfold PreludeExplorer.Path.
  apply eqb_empty_false in Hc, Hd. now rewrite Hc, Hd.
Qed.

(** ** PreludeExplorer: sizes *)

Lemma names_test (pe : PreludeExplorer.t) (ns : CollectionMetadata.t) :
  String.eqb (CollectionMetadata.Database ns) (PreludeExplorer.database pe)
  && String.eqb (CollectionMetadata.Collection ns) (PreludeExplorer.collection pe)
  = true <-> names pe ns.
Proof.
  unfold names. rewrite andb_true_iff, !String.eqb_eq. reflexivity.
Qed.

Lemma Size_loop_first (pe : PreludeExplorer.t)
    (before after : list CollectionMetadata.t) (ns : CollectionMetadata.t) :
  Forall (fun x => ~ names pe x) before ->
  names pe ns ->
  PreludeExplorer.Size_loop (before ++ ns :: after) pe = CollectionMetadata.Size ns.
Proof.
  intros Hbefore Hns. induction Hbefore as [|x before Hx _ IH]; simpl.
  - apply names_test in Hns. now rewrite Hns.
  - destruct (_ && _) eqn:E; [|exact IH].
    apply names_test in E. contradiction.
Qed.

Lemma Size_loop_none (pe : PreludeExplorer.t) (nss : list CollectionMetadata.t) :
  Forall (fun x => ~ names pe x) nss ->
  PreludeExplorer.Size_loop nss pe = 0.
Proof.
  induction 1 as [|x nss Hx _ IH]; simpl; [reflexivity|].
  destruct (_ && _) eqn:E; [|exact IH].
  apply names_test in E. contradiction.
Qed.

Lemma Size_loop_variant (p p' : Prelude.t) (db c : string) (m m' : bool)
    (nss : list CollectionMetadata.t) :
  PreludeExplorer.Size_loop nss (PreludeExplorer.mk p db c m)
  = PreludeExplorer.Size_loop nss (PreludeExplorer.mk p' db c m').
Proof. induction nss as [|ns nss IH]; simpl; [reflexivity|]. now rewrite IH. Qed.

(** C4, as the code has it (size synthesis).  [Size] is 0 for an entry
    without a collection.  For an entry with a collection it is the
    [Size] field of the first record of the flat sequence with the
    entry's database and collection, and 0 if there is none; the entry's
    [isMetadata] flag is not consulted, so a metadata entry reports the
    same size as its data entry. *)
Theorem size_synthesis (pe : PreludeExplorer.t) :
  (PreludeExplorer.IsDir pe = true -> PreludeExplorer.Size pe = 0)
  /\ (forall before ns after,
        PreludeExplorer.collection pe <> "" ->
        Prelude.NamespaceMetadatas (PreludeExplorer.prelude pe)
        = before ++ ns :: after ->
        Forall (fun x => ~ names pe x) before ->
        names pe ns ->
        PreludeExplorer.Size pe = CollectionMetadata.Size ns)
  /\ (PreludeExplorer.collection pe <> "" ->
      Forall (fun x => ~ names pe x)
        (Prelude.NamespaceMetadatas (PreludeExplorer.prelude pe)) ->
      PreludeExplorer.Size pe = 0)
  /\ PreludeExplorer.Size pe
     = PreludeExplorer.Size
         (PreludeExplorer.mk (PreludeExplorer.prelude pe)
            (PreludeExplorer.database pe) (PreludeExplorer.collection pe) false).
Proof.
  unfold PreludeExplorer.Size, PreludeExplorer.IsDir. repeat split.
  - intros ->. reflexivity.
  - intros before ns after Hc Hnss Hbefore Hns.
    apply eqb_empty_false in Hc. rewrite Hc, Hnss.
    now apply Size_loop_first.
  - intros Hc Hnone. apply eqb_empty_false in Hc. rewrite Hc.
    now apply Size_loop_none.
  - simpl. destruct (String.eqb _ ""); [reflexivity|].
    destruct pe as [p db c m]; simpl. apply Size_loop_variant.
Qed.

Lemma size_synthesis_witness :
  PreludeExplorer.Size (PreludeExplorer.mk sized_prelude "db1" "c1" false) = 42
  /\ PreludeExplorer.Size (PreludeExplorer.mk sized_prelude "db1" "" false) = 0
  /\ PreludeExplorer.Size (PreludeExplorer.mk sized_prelude "db2" "c1" false) = 0.
Proof.
  split; [|split].
  - destruct (size_synthesis (PreludeExplorer.mk sized_prelude "db1" "c1" false))
      as (_ & Hfirst & _).
    apply (Hfirst [CollectionMetadata.mk "db1" "c0" "" 7]
             (CollectionMetadata.mk "db1" "c1" "{}" 42)
             [CollectionMetadata.mk "db1" "c1" "" 9]).
    + discriminate.
    + reflexivity.
    + repeat constructor. intros [_ Hc]. discriminate Hc.
    + split; reflexivity.
  - destruct (size_synthesis (PreludeExplorer.mk sized_prelude "db1" "" false))
      as (Hdir & _).
    apply Hdir. reflexivity.
  - destruct (size_synthesis (PreludeExplorer.mk sized_prelude "db2" "c1" false))
      as (_ & _ & Hnone & _).
    apply Hnone; [discriminate|].
    repeat constructor; intros [Hdb _]; discriminate Hdb.
Defined.

(** C4 as claimed fails for metadata entries: the metadata entry of a
    collection of size 42 reports 42, not 0. *)
Lemma size_metadata_entry_not_zero :
  let pe := PreludeExplorer.mk sized_prelude "db1" "c1" true in
  PreludeExplorer.isMetadata pe = true
  /\ PreludeExplorer.IsDir pe = false
  /\ PreludeExplorer.Size pe = 42
  /\ PreludeExplorer.Size pe <> 0.
Proof. repeat split. discriminate. Qed.

(** ** MetadataPreludeFile *)

Lemma Open_loop_miss (mpf : MetadataPreludeFile.t)
    (dbMetadatas : list CollectionMetadata.t) :
  Forall (fun r => CollectionMetadata.Collection r
                   <> Intent.C (MetadataPreludeFile.Intent mpf)) dbMetadatas ->
  MetadataPreludeFile.Open_loop dbMetadatas mpf = (mpf, Some "so such file").
Proof.
  induction 1 as [|r rest Hr _ IH]; simpl; [reflexivity|].
  apply String.eqb_neq in Hr. now rewrite Hr.
Qed.

Lemma Open_loop_hit (mpf : MetadataPreludeFile.t)
    (before after : list CollectionMetadata.t) (r : CollectionMetadata.t) :
  Forall (fun r => CollectionMetadata.Collection r
                   <> Intent.C (MetadataPreludeFile.Intent mpf)) before ->
  CollectionMetadata.Collection r = Intent.C (MetadataPreludeFile.Intent mpf) ->
  MetadataPreludeFile.Open_loop (before ++ r :: after) mpf
  = (MetadataPreludeFile.mk (MetadataPreludeFile.Intent mpf)
       (MetadataPreludeFile.Prelude mpf)
       (Some (CollectionMetadata.Metadata r)), None).
Proof.
  intros Hbefore Hr. induction Hbefore as [|x before Hx _ IH]; simpl.
  - apply String.eqb_eq in Hr. now rewrite Hr.
  - apply String.eqb_neq in Hx. now rewrite Hx.
Qed.

(** a list either has no record of a collection or splits at the first *)
Lemma first_of_collection (c : string) (l : list CollectionMetadata.t) :
  Forall (fun r => CollectionMetadata.Collection r <> c) l
  \/ exists before r after,
       l = before ++ r :: after
       /\ Forall (fun r => CollectionMetadata.Collection r <> c) before
       /\ CollectionMetadata.Collection r = c.
Proof.
  induction l as [|x l IH]; [left; constructor|].
  destruct (decide (CollectionMetadata.Collection x = c)) as [Hx|Hx].
  - right. exists [], x, l. repeat split; [constructor | exact Hx].
  - destruct IH as [IH|(before & r & after & -> & Hb & Hr)].
    + left. now constructor.
    + right. exists (x :: before), r, after. repeat split; [now constructor | exact Hr].
Qed.

(** C9 (read-side metadata accessor).  [Open] fails, with the
    no-such-file error and without touching the accessor, exactly when
    the intent has no collection, or its database is not in the
    by-database index, or no record of that database has the intent's
    collection.  On a hit the buffer holds the metadata text of the first
    matching record and no error is returned.  [Close] makes the buffer
    absent and succeeds, also right after a successful [Open]. *)
Theorem metadata_accessor (mpf : MetadataPreludeFile.t) :
  let c := Intent.C (MetadataPreludeFile.Intent mpf) in
  let group :=
    Prelude.index
      (Prelude.NamespaceMetadatasByDB (MetadataPreludeFile.Prelude mpf))
      (Intent.DB (MetadataPreludeFile.Intent mpf)) in
  let absent :=
    c = "" \/ group = None
    \/ exists g, group = Some g
                 /\ Forall (fun r => CollectionMetadata.Collection r <> c) g in
  (absent <-> snd (MetadataPreludeFile.Open mpf) <> None)
  /\ (absent -> MetadataPreludeFile.Open mpf = (mpf, Some "so such file"))
  /\ (forall before r after,
        c <> "" ->
        group = Some (before ++ r :: after) ->
        Forall (fun r => CollectionMetadata.Collection r <> c) before ->
        CollectionMetadata.Collection r = c ->
        MetadataPreludeFile.Open mpf
        = (MetadataPreludeFile.mk (MetadataPreludeFile.Intent mpf)
             (MetadataPreludeFile.Prelude mpf)
             (Some (CollectionMetadata.Metadata r)), None))
  /\ MetadataPreludeFile.Close mpf
     = (MetadataPreludeFile.mk (MetadataPreludeFile.Intent mpf)
          (MetadataPreludeFile.Prelude mpf) None, None)
  /\ MetadataPreludeFile.Buffer
       (fst (MetadataPreludeFile.Close (fst (MetadataPreludeFile.Open mpf))))
     = None.
Proof.
  intros c group absent.
  assert (Hfail : absent -> MetadataPreludeFile.Open mpf = (mpf, Some "so such file")).
  { unfold absent, MetadataPreludeFile.Open. fold c. fold group.
    intros [Hc | [Hg | (g & Hg & Hnone)]].
    - rewrite Hc. reflexivity.
    - rewrite Hg. now destruct (String.eqb c "").
    - rewrite Hg. destruct (String.eqb c ""); [reflexivity|].
      now apply Open_loop_miss. }
  assert (Hhit : forall before r after,
             c <> "" ->
             group = Some (before ++ r :: after) ->
             Forall (fun r => CollectionMetadata.Collection r <> c) before ->
             CollectionMetadata.Collection r = c ->
             MetadataPreludeFile.Open mpf
             = (MetadataPreludeFile.mk (MetadataPreludeFile.Intent mpf)
                  (MetadataPreludeFile.Prelude mpf)
                  (Some (CollectionMetadata.Metadata r)), None)).
  { intros before r after Hc Hg Hbefore Hr.
    unfold MetadataPreludeFile.Open. fold c. fold group.
    apply eqb_empty_false in Hc. rewrite Hc, Hg.
    now apply Open_loop_hit. }
  split; [|split; [exact Hfail|split; [exact Hhit|split; reflexivity]]].
  split.
  - intros Habsent. now rewrite (Hfail Habsent).
  - intros Herr.
    destruct (decide (c = "")) as [Hc|Hc]; [now left|].
    destruct group as [g|] eqn:Hg; [|right; now left].
    destruct (first_of_collection c g)
      as [Hnone|(before & r & after & -> & Hb & Hr)].
    + right; right. now exists g.
    + rewrite (Hhit before r after Hc eq_refl Hb Hr) in Herr. now elim Herr.
Qed.

Lemma metadata_accessor_witness :
  MetadataPreludeFile.Open (sample_accessor "db1" "c1")
  = (MetadataPreludeFile.mk (Intent.mk "db1" "c1") sized_prelude (Some "{}"), None)
  /\ MetadataPreludeFile.Open (sample_accessor "db1" "")
     = (sample_accessor "db1" "", Some "so such file")
  /\ MetadataPreludeFile.Open (sample_accessor "db2" "c1")
     = (sample_accessor "db2" "c1", Some "so such file").
Proof.
  split; [|split].
  - destruct (metadata_accessor (sample_accessor "db1" "c1"))
      as (_ & _ & Hhit & _).
    apply (Hhit [CollectionMetadata.mk "db1" "c0" "" 7]
             (CollectionMetadata.mk "db1" "c1" "{}" 42)
             [CollectionMetadata.mk "db1" "c1" "" 9]).
    + discriminate.
    + vm_compute. reflexivity.
    + repeat constructor. discriminate.
    + reflexivity.
  - destruct (metadata_accessor (sample_accessor "db1" ""))
      as (_ & Hfail & _).
    apply Hfail. left. reflexivity.
  - destruct (metadata_accessor (sample_accessor "db2" "c1"))
      as (_ & Hfail & _).
    apply Hfail. right; left. vm_compute. reflexivity.
Defined.

(** ** AddMetadata: the two views of the records *)

Lemma first_seen_elem (l : list string) (x : string) :
  x ∈ first_seen l <-> x ∈ l.
Proof.
  induction l as [|y l IH]; simpl; [reflexivity|].
  rewrite !elem_of_cons, list_elem_of_filter, IH.
  destruct (decide (x = y)); tauto.
Qed.

Lemma first_seen_NoDup (l : list string) : NoDup (first_seen l).
Proof.
  induction l as [|y l IH]; simpl; constructor.
  - rewrite list_elem_of_filter. intros [Hne _]. now elim Hne.
  - now apply NoDup_filter.
Qed.

Lemma first_seen_snoc (l : list string) (x : string) :
  first_seen (l ++ [x])
  = if decide (x ∈ l) then first_seen l else first_seen l ++ [x].
Proof.
  induction l as [|y l IH]; simpl; [reflexivity|].
  rewrite IH. destruct (decide (x ∈ l)) as [Hin|Hout].
  - rewrite decide_True by (now right). reflexivity.
  - rewrite filter_app. destruct (decide (x = y)) as [->|Hne].
    + rewrite decide_True by left.
      rewrite (filter_cons_False _ y []) by (intros Hy; now elim Hy).
      now rewrite filter_nil, app_nil_r.
    + rewrite decide_False by (rewrite elem_of_cons; tauto).
      now rewrite (filter_cons_True _ x []) by exact Hne.
Qed.

Lemma of_database_snoc (db : string) (l : list CollectionMetadata.t)
    (cm : CollectionMetadata.t) :
  of_database db (l ++ [cm])
  = if decide (CollectionMetadata.Database cm = db)
    then of_database db l ++ [cm] else of_database db l.
Proof.
  unfold of_database. rewrite filter_app.
  destruct (decide (CollectionMetadata.Database cm = db)) as [Hd|Hd].
  - now rewrite (filter_cons_True _ cm []) by exact Hd.
  - rewrite (filter_cons_False _ cm []) by exact Hd.
    now rewrite filter_nil, app_nil_r.
Qed.

Lemma group_of_None (db : string) (l : list CollectionMetadata.t) :
  group_of db l = None <-> db ∉ map CollectionMetadata.Database l.
Proof.
  unfold group_of, of_database. induction l as [|x l IH]; simpl.
  - rewrite elem_of_nil. tauto.
  - rewrite elem_of_cons.
    destruct (decide (CollectionMetadata.Database x = db)) as [Hx|Hx].
    + rewrite filter_cons_True by exact Hx.
      split; [discriminate|]. intros Hne. elim Hne. now left.
    + rewrite filter_cons_False by exact Hx. rewrite IH.
      split; [|tauto]. intros Hout [Heq|Hin]; [now elim Hx|contradiction].
Qed.

Lemma group_of_Some (db : string) (l g : list CollectionMetadata.t) :
  group_of db l = Some g -> g = of_database db l /\ g <> [].
Proof.
  unfold group_of. destruct (of_database db l) eqn:E; [discriminate|].
  intros [= <-]. split; [reflexivity|discriminate].
Qed.

Lemma holds_nothing_dual_view (p : Prelude.t) : holds_nothing p -> dual_view p.
Proof.
  intros (Hdbs & Hnms & Hidx). split.
  - intros db. now rewrite Hidx, Hnms.
  - now rewrite Hdbs, Hnms.
Qed.

Lemma indexes_lookup (p : Prelude.t) (l : list CollectionMetadata.t) (db : string) :
  indexes p l ->
  match Prelude.NamespaceMetadatasByDB p with
  | Some m => m
  | None => ∅
  end !! db = group_of db l.
Proof.
  intros Hidx. specialize (Hidx db). unfold Prelude.index in Hidx.
  destruct (Prelude.NamespaceMetadatasByDB p); [exact Hidx|].
  now rewrite lookup_empty.
Qed.

Lemma group_of_or_nil (db : string) (l : list CollectionMetadata.t) :
  match group_of db l with
  | Some g => g
  | None => []
  end = of_database db l.
Proof. unfold group_of. now destruct (of_database db l). Qed.

Lemma group_of_snoc_same (l : list CollectionMetadata.t) (cm : CollectionMetadata.t) :
  group_of (CollectionMetadata.Database cm) (l ++ [cm])
  = Some (of_database (CollectionMetadata.Database cm) l ++ [cm]).
Proof.
  unfold group_of. rewrite of_database_snoc, decide_True by reflexivity.
  now destruct (of_database _ l).
Qed.

Lemma group_of_snoc_other (db : string) (l : list CollectionMetadata.t)
    (cm : CollectionMetadata.t) :
  CollectionMetadata.Database cm <> db ->
  group_of db (l ++ [cm]) = group_of db l.
Proof.
  intros Hne. unfold group_of. now rewrite of_database_snoc, decide_False.
Qed.

(** [AddMetadata] on an index that groups [l] gives one that groups
    [l] followed by the new record *)
Lemma AddMetadata_indexes (p : Prelude.t) (l : list CollectionMetadata.t)
    (cm : CollectionMetadata.t) :
  indexes p l -> indexes (Prelude.AddMetadata p cm) (l ++ [cm]).
Proof.
  intros Hidx db. unfold Prelude.AddMetadata; simpl.
  unfold Prelude.index_or_nil, Prelude.index.
  rewrite (indexes_lookup p l _ Hidx), group_of_or_nil.
  destruct (decide (CollectionMetadata.Database cm = db)) as [<-|Hne].
  - now rewrite lookup_insert_eq, group_of_snoc_same.
  - rewrite lookup_insert_ne by exact Hne.
    now rewrite (indexes_lookup p l db Hidx), group_of_snoc_other.
Qed.

(** the database name is appended exactly when it is new *)
Lemma AddMetadata_DBS (p : Prelude.t) (l : list CollectionMetadata.t)
    (cm : CollectionMetadata.t) :
  indexes p l ->
  Prelude.DBS (Prelude.AddMetadata p cm)
  = if decide (CollectionMetadata.Database cm ∈ map CollectionMetadata.Database l)
    then Prelude.DBS p
    else Prelude.DBS p ++ [CollectionMetadata.Database cm].
Proof.
  intros Hidx. set (d := CollectionMetadata.Database cm).
  unfold Prelude.AddMetadata; simpl. fold d.
  rewrite (indexes_lookup p l d Hidx).
  destruct (group_of d l) eqn:Hg.
  - rewrite decide_True; [reflexivity|].
    destruct (decide (d ∈ map CollectionMetadata.Database l)) as [Hin|Hout];
      [exact Hin|].
    apply group_of_None in Hout. congruence.
  - apply group_of_None in Hg. now rewrite decide_False.
Qed.

Lemma AddMetadata_DBS_extends (p : Prelude.t) (cm : CollectionMetadata.t) :
  exists dbs, Prelude.DBS (Prelude.AddMetadata p cm) = Prelude.DBS p ++ dbs.
Proof.
  unfold Prelude.AddMetadata; simpl.
  destruct (_ !! CollectionMetadata.Database cm).
  - exists []. now rewrite app_nil_r.
  - now exists [CollectionMetadata.Database cm].
Qed.

(** the invariant is kept by [AddMetadata] *)
Lemma AddMetadata_dual_view (p : Prelude.t) (cm : CollectionMetadata.t) :
  dual_view p -> dual_view (Prelude.AddMetadata p cm).
Proof.
  intros [Hidx Hdbs]. split.
  - now apply AddMetadata_indexes.
  - rewrite (AddMetadata_DBS p _ cm Hidx).
    change (Prelude.NamespaceMetadatas (Prelude.AddMetadata p cm))
      with (Prelude.NamespaceMetadatas p ++ [cm]).
    rewrite map_app; simpl. rewrite first_seen_snoc, <- Hdbs. reflexivity.
Qed.

Lemma AddMetadata_flat (p : Prelude.t) (cm : CollectionMetadata.t) :
  Prelude.NamespaceMetadatas (Prelude.AddMetadata p cm)
  = Prelude.NamespaceMetadatas p ++ [cm].
Proof. reflexivity. Qed.

Lemma AddMetadatas_cons (p : Prelude.t) (cm : CollectionMetadata.t)
    (cms : list CollectionMetadata.t) :
  Prelude.AddMetadatas p (cm :: cms)
  = Prelude.AddMetadatas (Prelude.AddMetadata p cm) cms.
Proof. reflexivity. Qed.

Lemma AddMetadatas_snoc (p : Prelude.t) (cms : list CollectionMetadata.t)
    (cm : CollectionMetadata.t) :
  Prelude.AddMetadatas p (cms ++ [cm])
  = Prelude.AddMetadata (Prelude.AddMetadatas p cms) cm.
Proof. unfold Prelude.AddMetadatas. now rewrite fold_left_app. Qed.

Lemma AddMetadatas_app (p : Prelude.t) (cms cms' : list CollectionMetadata.t) :
  Prelude.AddMetadatas p (cms ++ cms')
  = Prelude.AddMetadatas (Prelude.AddMetadatas p cms) cms'.
Proof. unfold Prelude.AddMetadatas. now rewrite fold_left_app. Qed.

Lemma AddMetadatas_flat (cms : list CollectionMetadata.t) (p : Prelude.t) :
  Prelude.NamespaceMetadatas (Prelude.AddMetadatas p cms)
  = Prelude.NamespaceMetadatas p ++ cms.
Proof.
  revert p. induction cms as [|cm cms IH]; intros p.
  - simpl. now rewrite app_nil_r.
  - rewrite AddMetadatas_cons, IH, AddMetadata_flat.
    now rewrite <- app_assoc.
Qed.

Lemma AddMetadatas_dual_view (cms : list CollectionMetadata.t) (p : Prelude.t) :
  dual_view p -> dual_view (Prelude.AddMetadatas p cms).
Proof.
  revert p. induction cms as [|cm cms IH]; intros p Hp; [exact Hp|].
  rewrite AddMetadatas_cons. apply IH. now apply AddMetadata_dual_view.
Qed.

Lemma AddMetadatas_Header (cms : list CollectionMetadata.t) (p : Prelude.t) :
  Prelude.Header (Prelude.AddMetadatas p cms) = Prelude.Header p.
Proof.
  revert p. induction cms as [|cm cms IH]; intros p; [reflexivity|].
  rewrite AddMetadatas_cons. now rewrite IH.
Qed.

Lemma count_occ_of_database (db : string) (cm : CollectionMetadata.t)
    (l : list CollectionMetadata.t) :
  count_occ CollectionMetadata_eq_dec (of_database db l) cm
  = if decide (CollectionMetadata.Database cm = db)
    then count_occ CollectionMetadata_eq_dec l cm else 0%nat.
Proof.
  unfold of_database. induction l as [|x l IH].
  - rewrite filter_nil. simpl. now destruct (decide _).
  - destruct (decide (CollectionMetadata.Database x = db)) as [Hx|Hx].
    + rewrite filter_cons_True by exact Hx. cbn [count_occ]. rewrite IH.
      destruct (CollectionMetadata_eq_dec x cm) as [->|Hne]; [|reflexivity].
      destruct (decide _); [reflexivity|contradiction].
    + rewrite filter_cons_False by exact Hx. cbn [count_occ]. rewrite IH.
      destruct (CollectionMetadata_eq_dec x cm) as [->|Hne]; [|reflexivity].
      destruct (decide _); [contradiction|reflexivity].
Qed.

(** C3, as the code has it (dual-view consistency).  After any sequence
    [cms] of [AddMetadata] calls on a Prelude that held nothing: the flat
    sequence is [cms]; every group of the index is the non-empty
    subsequence of the flat sequence made of the records of its database,
    in the same order; every record of the flat sequence is in the group
    of its database; a record occurs in the group of its database as
    often as in the flat sequence and in no other group -- exactly once
    when no record was added twice; and the database list has no
    duplicates, is the list of the records' databases in first-seen
    order, and names exactly the keys of the index. *)
Theorem dual_view_consistency (p0 : Prelude.t) (cms : list CollectionMetadata.t) :
  holds_nothing p0 ->
  let p := Prelude.AddMetadatas p0 cms in
  let flat := Prelude.NamespaceMetadatas p in
  let group := Prelude.index (Prelude.NamespaceMetadatasByDB p) in
  flat = cms
  /\ (forall db g, group db = Some g -> g = of_database db flat /\ g <> [])
  /\ (forall cm, cm ∈ flat ->
        exists g, group (CollectionMetadata.Database cm) = Some g /\ cm ∈ g)
  /\ (forall db g cm, group db = Some g ->
        count_occ CollectionMetadata_eq_dec g cm
        = if decide (CollectionMetadata.Database cm = db)
          then count_occ CollectionMetadata_eq_dec flat cm else 0%nat)
  /\ (NoDup cms ->
      forall db g cm, group db = Some g -> cm ∈ g ->
        count_occ CollectionMetadata_eq_dec flat cm = 1%nat)
  /\ NoDup (Prelude.DBS p)
  /\ Prelude.DBS p = first_seen (map CollectionMetadata.Database flat)
  /\ (forall db, db ∈ Prelude.DBS p <-> is_Some (group db)).
Proof.
  intros Hempty p flat group.
  assert (Hflat : flat = cms).
  { unfold flat, p. rewrite AddMetadatas_flat.
    destruct Hempty as (_ & -> & _). reflexivity. }
  destruct (AddMetadatas_dual_view cms p0 (holds_nothing_dual_view p0 Hempty))
    as [Hidx Hdbs].
  fold p in Hidx, Hdbs. fold flat in Hidx, Hdbs. fold group in Hidx.
  assert (Hgroup : forall db g, group db = Some g -> g = of_database db flat /\ g <> []).
  { intros db g Hg. rewrite Hidx in Hg. now apply group_of_Some. }
  repeat split.
  - exact Hflat.
  - now apply (Hgroup db g).
  - now apply (Hgroup db g).
  - intros cm Hcm.
    destruct (group (CollectionMetadata.Database cm)) as [g|] eqn:Hg.
    + exists g. split; [reflexivity|].
      destruct (Hgroup _ _ Hg) as [-> _].
      unfold of_database. rewrite list_elem_of_filter. now split.
    + rewrite Hidx in Hg. apply group_of_None in Hg.
      elim Hg. apply list_elem_of_fmap. now exists cm.
  - intros db g cm Hg. destruct (Hgroup _ _ Hg) as [-> _].
    apply count_occ_of_database.
  - intros Hnodup db g cm Hg Hcm. destruct (Hgroup _ _ Hg) as [-> _].
    unfold of_database in Hcm. apply list_elem_of_filter in Hcm as [_ Hcm].
    rewrite Hflat in *.
    apply (proj1 (NoDup_count_occ' CollectionMetadata_eq_dec cms)).
    + now apply NoDup_ListNoDup.
    + now apply list_elem_of_In.
  - rewrite Hdbs. apply first_seen_NoDup.
  - exact Hdbs.
  - rewrite Hdbs, first_seen_elem, Hidx. intros Hin.
    destruct (group_of db flat) eqn:Hg; [now eexists|].
    apply group_of_None in Hg. contradiction.
  - rewrite Hdbs, first_seen_elem, Hidx. intros [g Hg].
    destruct (decide (db ∈ map CollectionMetadata.Database flat)) as [Hin|Hout];
      [exact Hin|].
    apply group_of_None in Hout. congruence.
Qed.

Lemma dual_view_consistency_witness :
  holds_nothing Prelude.empty
  /\ Prelude.NamespaceMetadatas tree_prelude
     = [CollectionMetadata.mk "db1" "c1" "{}" 10;
        CollectionMetadata.mk "db2" "c3" "" 20;
        CollectionMetadata.mk "db1" "c2" "" 30]
  /\ NoDup (Prelude.DBS tree_prelude).
Proof.
  assert (Hempty : holds_nothing Prelude.empty) by (repeat split).
  split; [exact Hempty|].
  destruct (dual_view_consistency Prelude.empty
              [CollectionMetadata.mk "db1" "c1" "{}" 10;
               CollectionMetadata.mk "db2" "c3" "" 20;
               CollectionMetadata.mk "db1" "c2" "" 30] Hempty)
    as (Hflat & _ & _ & _ & _ & Hnodup & _).
  split; [exact Hflat|exact Hnodup].
Defined.

(** C3 as claimed fails when a record is added twice: [AddMetadata]
    keeps both, so the record is reached through the group of its
    database and is in the flat sequence twice, not once. *)
Lemma record_added_twice_appears_twice :
  let r := CollectionMetadata.mk "db1" "c1" "{}" 10 in
  let p := Prelude.AddMetadata (Prelude.AddMetadata Prelude.empty r) r in
  Prelude.index (Prelude.NamespaceMetadatasByDB p) "db1" = Some [r; r]
  /\ Prelude.NamespaceMetadatas p = [r; r]
  /\ count_occ CollectionMetadata_eq_dec (Prelude.NamespaceMetadatas p) r = 2%nat
  /\ count_occ CollectionMetadata_eq_dec (Prelude.NamespaceMetadatas p) r <> 1%nat.
Proof. repeat split. discriminate. Qed.

(** ** PreludeExplorer: listings *)

Lemma namespace_entries_listing (p : Prelude.t) (db : string)
    (nss : list CollectionMetadata.t) (pes : list PreludeExplorer.t) :
  PreludeExplorer.namespace_entries p db nss pes
  = pes ++ flat_map (listing p db) nss.
Proof.
  revert pes. induction nss as [|ns nss IH]; intros pes; simpl.
  - now rewrite app_nil_r.
  - rewrite IH. unfold listing.
    destruct (String.eqb (CollectionMetadata.Metadata ns) ""); simpl;
      now rewrite <- !app_assoc.
Qed.

Lemma database_entries_directories (p : Prelude.t) (dbs : list string)
    (pes : list PreludeExplorer.t) :
  PreludeExplorer.database_entries p dbs pes = pes ++ map (directory p) dbs.
Proof.
  revert pes. induction dbs as [|db dbs IH]; intros pes; simpl.
  - now rewrite app_nil_r.
  - rewrite IH. now rewrite <- app_assoc.
Qed.

(** the listing of the root: the entries of the records under the empty
    database name, then one directory entry per name of the database list *)
Lemma ReadDir_root (p : Prelude.t) :
  PreludeExplorer.ReadDir (PreludeExplorer.NewPreludeExplorer p)
  = Ok (flat_map (listing p "")
          (Prelude.index_or_nil (Prelude.NamespaceMetadatasByDB p) "")
        ++ map (directory p) (Prelude.DBS p)).
Proof.
  unfold PreludeExplorer.ReadDir, Prelude.index_or_nil; simpl.
  destruct (Prelude.index (Prelude.NamespaceMetadatasByDB p) "");
    rewrite database_entries_directories; [|reflexivity].
  now rewrite namespace_entries_listing.
Qed.

Lemma ReadDir_database (pe : PreludeExplorer.t) (g : list CollectionMetadata.t) :
  PreludeExplorer.collection pe = "" ->
  PreludeExplorer.database pe <> "" ->
  Prelude.index (Prelude.NamespaceMetadatasByDB (PreludeExplorer.prelude pe))
    (PreludeExplorer.database pe) = Some g ->
  PreludeExplorer.ReadDir pe
  = Ok (flat_map (listing (PreludeExplorer.prelude pe) (PreludeExplorer.database pe)) g).
Proof.
  intros Hc Hd Hg. unfold PreludeExplorer.ReadDir, PreludeExplorer.IsDir.
  apply eqb_empty_false in Hd. rewrite Hc, Hd, Hg; simpl.
  now rewrite namespace_entries_listing.
Qed.

Lemma ReadDir_not_a_directory (pe : PreludeExplorer.t) :
  PreludeExplorer.IsDir pe = false ->
  PreludeExplorer.ReadDir pe = Err "not a directory".
Proof. intros H. unfold PreludeExplorer.ReadDir. now rewrite H. Qed.

Lemma ReadDir_no_such_directory (pe : PreludeExplorer.t) :
  PreludeExplorer.IsDir pe = true ->
  PreludeExplorer.database pe <> "" ->
  Prelude.index (Prelude.NamespaceMetadatasByDB (PreludeExplorer.prelude pe))
    (PreludeExplorer.database pe) = None ->
  PreludeExplorer.ReadDir pe = Err "no such directory".
Proof.
  intros Hdir Hd Hg. unfold PreludeExplorer.ReadDir.
  apply eqb_empty_false in Hd. now rewrite Hdir, Hd, Hg.
Qed.

(** C6 (tree synthesis).  Let the records added to a Prelude that held
    nothing have the databases "db1", "db2" in first-seen order (so none
    has an empty database), and let the records of "db1" be [r1] with
    collection "c1" and a non-empty metadata text, then [r2] with
    collection "c2" and an empty one.  Then the root lists exactly the
    directories db1, db2; db1 lists exactly the entries named c1.bson,
    c1.metadata.json, c2.bson; [ReadDir] on an entry that is not a
    directory fails with "not a directory", and on a database entry whose
    key is not in the index with "no such directory". *)
Theorem tree_synthesis (p0 : Prelude.t) (cms : list CollectionMetadata.t)
    (r1 r2 : CollectionMetadata.t) :
  holds_nothing p0 ->
  first_seen (map CollectionMetadata.Database cms) = ["db1"; "db2"] ->
  of_database "db1" cms = [r1; r2] ->
  CollectionMetadata.Collection r1 = "c1" ->
  CollectionMetadata.Metadata r1 <> "" ->
  CollectionMetadata.Collection r2 = "c2" ->
  CollectionMetadata.Metadata r2 = "" ->
  let p := Prelude.AddMetadatas p0 cms in
  let db1 := PreludeExplorer.mk p "db1" "" false in
  let db2 := PreludeExplorer.mk p "db2" "" false in
  let c1_bson := PreludeExplorer.mk p "db1" "c1" false in
  let c1_metadata := PreludeExplorer.mk p "db1" "c1" true in
  let c2_bson := PreludeExplorer.mk p "db1" "c2" false in
  PreludeExplorer.ReadDir (PreludeExplorer.NewPreludeExplorer p) = Ok [db1; db2]
  /\ map PreludeExplorer.Name [db1; db2] = ["db1"; "db2"]
  /\ PreludeExplorer.ReadDir db1 = Ok [c1_bson; c1_metadata; c2_bson]
  /\ map PreludeExplorer.Name [c1_bson; c1_metadata; c2_bson]
     = ["c1.bson"; "c1.metadata.json"; "c2.bson"]
  /\ (forall pe, PreludeExplorer.IsDir pe = false ->
        PreludeExplorer.ReadDir pe = Err "not a directory")
  /\ (forall pe, PreludeExplorer.IsDir pe = true ->
        PreludeExplorer.database pe <> "" ->
        Prelude.index (Prelude.NamespaceMetadatasByDB (PreludeExplorer.prelude pe))
          (PreludeExplorer.database pe) = None ->
        PreludeExplorer.ReadDir pe = Err "no such directory").
Proof.
  intros Hempty Hdbs Hdb1 Hc1 Hm1 Hc2 Hm2 p db1 db2 c1_bson c1_metadata c2_bson.
  destruct (AddMetadatas_dual_view cms p0 (holds_nothing_dual_view p0 Hempty))
    as [Hidx Hlist].
  fold p in Hidx, Hlist.
  assert (Hflat : Prelude.NamespaceMetadatas p = cms).
  { unfold p. rewrite AddMetadatas_flat.
    destruct Hempty as (_ & -> & _). reflexivity. }
  rewrite Hflat in Hidx, Hlist. rewrite Hdbs in Hlist.
  assert (Htop : Prelude.index (Prelude.NamespaceMetadatasByDB p) "" = None).
  { rewrite Hidx. apply group_of_None. rewrite <- first_seen_elem, Hdbs.
    rewrite !elem_of_cons, elem_of_nil. intros [H|[H|[]]]; discriminate H. }
  split; [|split; [reflexivity|split; [|split; [reflexivity|split]]]].
  - rewrite ReadDir_root. unfold Prelude.index_or_nil.
    now rewrite Htop, Hlist.
  - rewrite (ReadDir_database db1 [r1; r2]); try reflexivity; try discriminate.
    + simpl. unfold listing. rewrite Hc1, Hc2, Hm2. simpl.
      apply eqb_empty_false in Hm1. now rewrite Hm1.
    + simpl. rewrite Hidx. unfold group_of. now rewrite Hdb1.
  - exact ReadDir_not_a_directory.
  - exact ReadDir_no_such_directory.
Qed.

Lemma tree_synthesis_witness :
  PreludeExplorer.ReadDir (PreludeExplorer.NewPreludeExplorer tree_prelude)
  = Ok [directory tree_prelude "db1"; directory tree_prelude "db2"]
  /\ PreludeExplorer.ReadDir (directory tree_prelude "db1")
     = Ok [PreludeExplorer.mk tree_prelude "db1" "c1" false;
           PreludeExplorer.mk tree_prelude "db1" "c1" true;
           PreludeExplorer.mk tree_prelude "db1" "c2" false].
Proof.
  assert (Hempty : holds_nothing Prelude.empty) by (repeat split).
  destruct (tree_synthesis Prelude.empty
              [CollectionMetadata.mk "db1" "c1" "{}" 10;
               CollectionMetadata.mk "db2" "c3" "" 20;
               CollectionMetadata.mk "db1" "c2" "" 30]
              (CollectionMetadata.mk "db1" "c1" "{}" 10)
              (CollectionMetadata.mk "db1" "c2" "" 30)
              Hempty)
    as (Hroot & _ & Hdb1 & _); try reflexivity; try discriminate.
  split; [exact Hroot|exact Hdb1].
Defined.

(** the listing of the root in terms of the records added: the entries
    of the records with an empty database, then one directory entry per
    database name in first-seen order *)
Lemma ReadDir_root_of_records (p0 : Prelude.t) (cms : list CollectionMetadata.t) :
  holds_nothing p0 ->
  let p := Prelude.AddMetadatas p0 cms in
  PreludeExplorer.ReadDir (PreludeExplorer.NewPreludeExplorer p)
  = Ok (flat_map (listing p "") (of_database "" cms)
        ++ map (directory p) (first_seen (map CollectionMetadata.Database cms))).
Proof.
  intros Hempty p.
  destruct (AddMetadatas_dual_view cms p0 (holds_nothing_dual_view p0 Hempty))
    as [Hidx Hlist].
  fold p in Hidx, Hlist.
  assert (Hflat : Prelude.NamespaceMetadatas p = cms).
  { unfold p. rewrite AddMetadatas_flat.
    destruct Hempty as (_ & -> & _). reflexivity. }
  rewrite Hflat in Hidx, Hlist.
  rewrite ReadDir_root, Hlist. unfold Prelude.index_or_nil.
  now rewrite Hidx, group_of_or_nil.
Qed.

(** as soon as one record has an empty database, that name is on the
    database list and the root lists a directory entry for it, which is
    the root itself *)
Lemma root_lists_itself (p0 : Prelude.t) (cms : list CollectionMetadata.t)
    (cm : CollectionMetadata.t) :
  holds_nothing p0 ->
  cm ∈ cms ->
  CollectionMetadata.Database cm = "" ->
  let p := Prelude.AddMetadatas p0 cms in
  exists entries,
    PreludeExplorer.ReadDir (PreludeExplorer.NewPreludeExplorer p) = Ok entries
    /\ directory p "" ∈ entries
    /\ directory p "" = PreludeExplorer.NewPreludeExplorer p.
Proof.
  intros Hempty Hcm Hdb p. eexists. split; [|split].
  - now apply ReadDir_root_of_records.
  - apply elem_of_app. right. apply list_elem_of_fmap.
    exists "". split; [reflexivity|].
    apply first_seen_elem, list_elem_of_fmap. now exists cm.
  - reflexivity.
Qed.

(** C5, at a dump of one collection and a top-level oplog.  The root
    lists the oplog first, as a data entry of its own, then the directory
    of "db1" -- and then a directory entry for the empty database name,
    because [AddMetadata] put that name on the database list.  That entry
    has an empty name and is the root itself: its listing is the root's
    and holds the oplog again. *)
Theorem oplog_root_listing :
  let root := PreludeExplorer.NewPreludeExplorer oplog_prelude in
  let oplog := PreludeExplorer.mk oplog_prelude "" "oplog" false in
  let unnamed := directory oplog_prelude "" in
  Prelude.DBS oplog_prelude = ["db1"; ""]
  /\ PreludeExplorer.ReadDir root
     = Ok [oplog; directory oplog_prelude "db1"; unnamed]
  /\ PreludeExplorer.Name oplog = "oplog.bson"
  /\ PreludeExplorer.IsDir unnamed = true
  /\ PreludeExplorer.Name unnamed = ""
  /\ unnamed = root
  /\ PreludeExplorer.ReadDir unnamed
     = Ok [oplog; directory oplog_prelude "db1"; unnamed].
Proof. repeat split. Qed.

(** ** Machine integers *)

Lemma testbit_above (a k n : Z) :
  0 <= a < 2 ^ k -> k <= n -> Z.testbit a n = false.
Proof.
  intros Ha Hn. assert (0 <= k \/ k < 0) as [Hk|Hk] by lia.
  - rewrite <- (Z.mod_small a (2 ^ k)) by exact Ha.
    apply Z.mod_pow2_bits_high. lia.
  - rewrite Z.pow_neg_r in Ha by exact Hk. lia.
Qed.

(** or-ing a value shifted above the bits of another adds them *)
Lemma lor_shiftl_add (a b k : Z) :
  0 <= k -> 0 <= a < 2 ^ k -> Z.lor a (Z.shiftl b k) = a + b * 2 ^ k.
Proof.
  intros Hk Ha. rewrite <- Z.shiftl_mul_pow2 by exact Hk.
  rewrite <- Z.add_lor_land.
  assert (Hland : Z.land a (Z.shiftl b k) = 0).
  { apply Z.bits_inj'. intros n Hn.
    rewrite Z.land_spec, Z.bits_0.
    destruct (Z.lt_ge_cases n k) as [Hlt|Hge].
    - rewrite (Z.shiftl_spec_low b k n) by exact Hlt. apply andb_false_r.
    - now rewrite (testbit_above a k n). }
  rewrite Hland. lia.
Qed.

Lemma shl32_byte (b k : Z) :
  is_byte b -> 0 <= k <= 24 -> shl32 (uint32 b) k = b * 2 ^ k.
Proof.
  unfold is_byte, shl32, uint32. intros Hb Hk.
  assert (H24 : 2 ^ k <= 2 ^ 24) by (apply Z.pow_le_mono_r; lia).
  assert (Hpos : 0 < 2 ^ k) by (apply Z.pow_pos_nonneg; lia).
  rewrite (Z.mod_small b) by lia.
  rewrite Z.shiftl_mul_pow2 by lia.
  apply Z.mod_small. nia.
Qed.

(** the value [Read] compares with the magic number is the four bytes
    read as a little-endian [int32] *)
Lemma magicNumberOf_le_value (b0 b1 b2 b3 : Z) :
  is_byte b0 -> is_byte b1 -> is_byte b2 -> is_byte b3 ->
  magicNumberOf [b0; b1; b2; b3] = int32 (le_value [b0; b1; b2; b3]).
Proof.
  intros H0 H1 H2 H3. unfold magicNumberOf; simpl nth.
  rewrite !shl32_byte by (assumption || lia).
  unfold is_byte in *.
  replace (b0 * 2 ^ 0) with b0 by lia.
  rewrite <- (Z.shiftl_mul_pow2 b1 8), <- (Z.shiftl_mul_pow2 b2 16),
    <- (Z.shiftl_mul_pow2 b3 24) by lia.
  rewrite (lor_shiftl_add b0 b1 8) by lia.
  rewrite (lor_shiftl_add _ b2 16) by lia.
  rewrite (lor_shiftl_add _ b3 24) by lia.
  f_equal. simpl le_value. lia.
Qed.

Lemma byte_is_byte (x : Z) : is_byte (byte x).
Proof. unfold is_byte, byte. apply Z.mod_pos_bound. lia. Qed.

Lemma int32_uint32 (x : Z) : is_int32 x -> int32 (uint32 x) = x.
Proof.
  unfold is_int32, int32, uint32. intros Hx.
  change (2 ^ 32) with 4294967296 in *. change (2 ^ 31) with 2147483648 in *.
  Z.div_mod_to_equations. lia.
Qed.

Section MagicNumber.
Context {consts : ArchiveConsts}.

Lemma magicNumberBytes_length : length magicNumberBytes = 4%nat.
Proof. reflexivity. Qed.

Lemma magicNumberBytes_is_byte : Forall is_byte magicNumberBytes.
Proof. unfold magicNumberBytes. repeat constructor; apply byte_is_byte. Qed.

(** the four bytes written are the magic number in little-endian order *)
Lemma magicNumberBytes_le_value :
  le_value magicNumberBytes = uint32 MagicNumber.
Proof.
  unfold magicNumberBytes; simpl map; simpl le_value.
  assert (Hu : 0 <= uint32 MagicNumber < 2 ^ 32)
    by (apply Z.mod_pos_bound; lia).
  generalize dependent (uint32 MagicNumber). intros u Hu.
  unfold byte. rewrite !Z.shiftr_div_pow2 by lia.
  change (2 ^ (0 * 8)) with 1. change (2 ^ (1 * 8)) with 256.
  change (2 ^ (2 * 8)) with 65536. change (2 ^ (3 * 8)) with 16777216.
  change (2 ^ 8) with 256. change (2 ^ 32) with 4294967296 in Hu.
  Z.div_mod_to_equations. lia.
Qed.

Lemma magicNumberOf_magicNumberBytes :
  is_int32 MagicNumber -> magicNumberOf magicNumberBytes = MagicNumber.
Proof.
  intros Hm.
  pose proof magicNumberBytes_le_value as Hle.
  pose proof magicNumberBytes_is_byte as Hb.
  unfold magicNumberBytes in *; simpl map in *.
  inversion Hb as [|? ? H0 Hb1]; subst.
  inversion Hb1 as [|? ? H1 Hb2]; subst.
  inversion Hb2 as [|? ? H2 Hb3]; subst.
  inversion Hb3 as [|? ? H3 _]; subst.
  rewrite magicNumberOf_le_value by assumption.
  rewrite Hle. now apply int32_uint32.
Qed.

End MagicNumber.

(** ** Prelude.Read: the magic number *)

Section ReadMagic.
Context {consts : ArchiveConsts} {codec : BSON}.

Lemma Read_four_bytes (p : Prelude.t) (b0 b1 b2 b3 : Z) (rest : bytes) :
  Read p (b0 :: b1 :: b2 :: b3 :: rest)
  = if negb (magicNumberOf [b0; b1; b2; b3] =? MagicNumber) then
      (p, rest, Some "stream or file does not apear to be a mongodump archive")
    else
      Parser.ReadBlock preludeParserConsumer rest
        match Prelude.NamespaceMetadatasByDB p with
        | Some _ =>
            Prelude.mk (Prelude.Header p) (Prelude.DBS p)
              (Prelude.NamespaceMetadatas p) (Some ∅)
        | None => p
        end.
Proof. reflexivity. Qed.

(** C2 (magic rejection).  When the first four bytes of the stream, read
    as a little-endian [int32], are not the magic number, [Read] fails
    with the not-an-archive error, has taken exactly those four bytes
    from the stream, and leaves the Prelude as it was: its header, flat
    sequence, index and database list are unchanged. *)
Theorem magic_rejection (p : Prelude.t) (b0 b1 b2 b3 : Z) (rest : bytes) :
  is_byte b0 -> is_byte b1 -> is_byte b2 -> is_byte b3 ->
  int32 (le_value [b0; b1; b2; b3]) <> MagicNumber ->
  Read p (b0 :: b1 :: b2 :: b3 :: rest)
  = (p, rest, Some "stream or file does not apear to be a mongodump archive").
Proof.
  intros H0 H1 H2 H3 Hmagic. rewrite Read_four_bytes.
  rewrite magicNumberOf_le_value by assumption.
  apply Z.eqb_neq in Hmagic. now rewrite Hmagic.
Qed.

End ReadMagic.

Lemma magic_rejection_witness :
  @Read mongodump_consts BSONDocument.codec tree_prelude [1; 2; 3; 4; 5; 6]
  = (tree_prelude, [5; 6],
     Some "stream or file does not apear to be a mongodump archive").
Proof.
  apply (@magic_rejection mongodump_consts BSONDocument.codec);
    try (unfold is_byte; lia).
  vm_compute. discriminate.
Defined.

(** ** Prelude.Write: what reaches the sink *)

Section Emission.
Context {W : Type} {writer : Writer W}.

Lemma written_app (out : W) (chunks chunks' : list (list Z)) :
  written out (chunks ++ chunks') = written (written out chunks) chunks'.
Proof. unfold written. apply fold_left_app. Qed.

Lemma emit_app (chunks chunks' : list (list Z)) (out : W) :
  emit out (chunks ++ chunks')
  = match emit out chunks with
    | (out, Some err) => (out, Some err)
    | (out, None) => emit out chunks'
    end.
Proof.
  revert out. induction chunks as [|c chunks IH]; intros out; simpl.
  - reflexivity.
  - destruct (io_Write out c) as [out' [err|]]; [reflexivity|apply IH].
Qed.

Lemma emit_accepted (chunks : list (list Z)) (out : W) :
  accepts out chunks -> emit out chunks = (written out chunks, None).
Proof.
  revert out. induction chunks as [|c chunks IH]; intros out; simpl.
  - reflexivity.
  - intros [Hc Hrest]. destruct (io_Write out c) as [out' err]; simpl in *.
    subst err. now apply IH.
Qed.

Lemma written_cons (out : W) (chunk : list Z) (chunks : list (list Z)) :
  written out (chunk :: chunks) = written (fst (io_Write out chunk)) chunks.
Proof. reflexivity. Qed.

Lemma emit_refused (chunks : list (list Z)) (out : W) (n : nat)
    (chunk : list Z) (err : error) :
  chunks !! n = Some chunk ->
  accepts out (take n chunks) ->
  snd (io_Write (written out (take n chunks)) chunk) = Some err ->
  emit out chunks = (written out (take (S n) chunks), Some err).
Proof.
  revert out n. induction chunks as [|c chunks IH]; intros out n Hn Hacc Herr.
  - discriminate Hn.
  - destruct n as [|n].
    + injection Hn as ->. cbn [take] in *. rewrite written_cons.
      cbn [emit]. change (written out []) with out in Herr.
      destruct (io_Write out chunk) as [out' e]; simpl in *. now subst e.
    + change (take (S n) (c :: chunks)) with (c :: take n chunks) in *.
      change (take (S (S n)) (c :: chunks)) with (c :: take (S n) chunks).
      rewrite written_cons in *. destruct Hacc as [Hc Hacc].
      cbn [emit]. destruct (io_Write out c) as [out' e]; simpl in *. subst e.
      now apply IH.
Qed.

Context {consts : ArchiveConsts} {codec : BSON}.

Lemma Write_loop_emit (cms : list CollectionMetadata.t) (docs : list (list Z)) :
  Forall2 (fun cm doc => Marshal_CollectionMetadata cm = Ok doc) cms docs ->
  forall out : W, Write_loop cms out = emit out docs.
Proof.
  induction 1 as [|cm doc cms docs Hcm _ IH]; intros out; simpl.
  - reflexivity.
  - rewrite Hcm. destruct (io_Write out doc) as [out' [err|]];
      [reflexivity|apply IH].
Qed.

Lemma Write_emit (p : Prelude.t) (hdoc : list Z) (docs : list (list Z)) (out : W) :
  Marshal_Header (Prelude.Header p) = Ok hdoc ->
  Forall2 (fun cm doc => Marshal_CollectionMetadata cm = Ok doc)
    (Prelude.NamespaceMetadatas p) docs ->
  Write p out = emit out (magicNumberBytes :: hdoc :: docs ++ [terminatorBytes]).
Proof.
  intros Hh Hdocs. unfold Write. cbn [emit].
  destruct (io_Write out magicNumberBytes) as [out1 [err|]]; [reflexivity|].
  rewrite Hh. destruct (io_Write out1 hdoc) as [out2 [err|]]; [reflexivity|].
  rewrite emit_app, (Write_loop_emit _ docs Hdocs).
  destruct (emit out2 docs) as [out3 [err|]]; [reflexivity|].
  cbn [emit]. now destruct (io_Write out3 terminatorBytes) as [out4 [err|]].
Qed.

(** the loop stops at the first record that cannot be marshalled *)
Lemma Write_loop_marshal_failure (docs : list (list Z)) (err : error)
    (later : list (result bytes)) :
  forall (cms : list CollectionMetadata.t) (out : W),
    map Marshal_CollectionMetadata cms = map Ok docs ++ Err err :: later ->
    Write_loop cms out
    = match emit out docs with
      | (out, Some e) => (out, Some e)
      | (out, None) => (out, Some err)
      end.
Proof.
  induction docs as [|doc docs IH]; intros [|cm cms] out Hres;
    try discriminate Hres; cbn [map app] in Hres;
    injection Hres as Hcm Hres; cbn [Write_loop emit]; rewrite Hcm.
  - reflexivity.
  - destruct (io_Write out doc) as [out' [e|]]; [reflexivity|].
    now apply IH.
Qed.

(** the same for [Write], the header counted as the first document *)
Lemma Write_stops_at_marshal_failure (p : Prelude.t) (docs : list (list Z))
    (err : error) (later : list (result bytes)) (out : W) :
  Marshal_Header (Prelude.Header p)
    :: map Marshal_CollectionMetadata (Prelude.NamespaceMetadatas p)
  = map Ok docs ++ Err err :: later ->
  forall chunks, chunks = magicNumberBytes :: docs ->
    (accepts out chunks -> Write p out = (written out chunks, Some err))
    /\ (forall n chunk e,
          chunks !! n = Some chunk ->
          accepts out (take n chunks) ->
          snd (io_Write (written out (take n chunks)) chunk) = Some e ->
          Write p out = (written out (take (S n) chunks), Some e)).
Proof.
  intros Hres chunks ->.
  assert (Hstop : Write p out
                  = match emit out (magicNumberBytes :: docs) with
                    | (out, Some e) => (out, Some e)
                    | (out, None) => (out, Some err)
                    end).
  { unfold Write. cbn [emit].
    destruct (io_Write out magicNumberBytes) as [out1 [e|]]; [reflexivity|].
    destruct docs as [|hdoc docs]; cbn [map app] in Hres;
      injection Hres as Hheader Hres; rewrite Hheader; [reflexivity|].
    cbn [emit]. destruct (io_Write out1 hdoc) as [out2 [e|]]; [reflexivity|].
    rewrite (Write_loop_marshal_failure docs err later _ out2 Hres).
    now destruct (emit out2 docs) as [out3 [e|]]. }
  split.
  - intros Hacc. now rewrite Hstop, (emit_accepted _ out Hacc).
  - intros n chunk e Hn Hacc Herr.
    now rewrite Hstop, (emit_refused _ out n chunk e Hn Hacc Herr).
Qed.

End Emission.

Lemma buffer_accepts (chunks : list (list Z)) (buf : list Z) :
  accepts buf chunks.
Proof.
  revert buf. induction chunks as [|c chunks IH]; intros buf; simpl; auto.
Qed.

Lemma buffer_written (chunks : list (list Z)) (buf : list Z) :
  written buf chunks = buf ++ concat chunks.
Proof.
  revert buf. induction chunks as [|c chunks IH]; intros buf; simpl.
  - now rewrite app_nil_r.
  - unfold written in *; simpl. rewrite IH. now rewrite <- app_assoc.
Qed.

Lemma Write_into_buffer {consts : ArchiveConsts} {codec : BSON}
    (p : Prelude.t) (hdoc : list Z) (docs : list (list Z)) (buf : list Z) :
  Marshal_Header (Prelude.Header p) = Ok hdoc ->
  Forall2 (fun cm doc => Marshal_CollectionMetadata cm = Ok doc)
    (Prelude.NamespaceMetadatas p) docs ->
  Write p buf
  = (buf ++ magicNumberBytes ++ hdoc ++ concat docs ++ terminatorBytes, None).
Proof.
  intros Hh Hdocs. rewrite (Write_emit p hdoc docs buf Hh Hdocs).
  rewrite emit_accepted by apply buffer_accepts.
  rewrite buffer_written. cbn [concat].
  rewrite concat_app. cbn [concat]. now rewrite app_nil_r.
Qed.

(** C7 (write emission order).  For every Prelude and every sink.  The
    magic number goes out as four bytes, least significant first.  When
    [bson.Marshal] gives the document [hdoc] for the header and the
    documents [docs] for the records of the flat sequence, in order, the
    chunks handed to the sink are, in order: the magic bytes; [hdoc];
    each document of [docs], with nothing between them; the terminator
    bytes.  If the sink takes them all, [Write] returns no error and the
    sink has received exactly these chunks; if the write of chunk [n] is
    the first to fail, [Write] returns its error and the sink has
    received nothing after that chunk.  Into a buffer the output is the
    concatenation.  When [bson.Marshal] fails, with error [err], on the
    header or on a record, and [docs] are the documents made before that,
    header first, the chunks are the magic bytes and [docs] only: if the
    sink takes them, [Write] returns [err] and the sink has received
    exactly these chunks, no terminator; a failing write ends [Write] as
    before. *)
Theorem write_emission_order {consts : ArchiveConsts} {codec : BSON}
    {W : Type} {writer : Writer W} (p : Prelude.t) (out : W) :
  (length magicNumberBytes = 4%nat
   /\ Forall is_byte magicNumberBytes
   /\ le_value magicNumberBytes = uint32 MagicNumber)
  /\ (forall (hdoc : list Z) (docs : list (list Z)),
        Marshal_Header (Prelude.Header p) = Ok hdoc ->
        Forall2 (fun cm doc => Marshal_CollectionMetadata cm = Ok doc)
          (Prelude.NamespaceMetadatas p) docs ->
        let chunks := magicNumberBytes :: hdoc :: docs ++ [terminatorBytes] in
        (accepts out chunks -> Write p out = (written out chunks, None))
        /\ (forall n chunk err,
              chunks !! n = Some chunk ->
              accepts out (take n chunks) ->
              snd (io_Write (written out (take n chunks)) chunk) = Some err ->
              Write p out = (written out (take (S n) chunks), Some err))
        /\ (forall buf : list Z,
              Write p buf
              = (buf ++ magicNumberBytes ++ hdoc ++ concat docs ++ terminatorBytes,
                 None)))
  /\ (forall (docs : list (list Z)) (err : error) (later : list (result bytes)),
        Marshal_Header (Prelude.Header p)
          :: map Marshal_CollectionMetadata (Prelude.NamespaceMetadatas p)
        = map Ok docs ++ Err err :: later ->
        let chunks := magicNumberBytes :: docs in
        (accepts out chunks -> Write p out = (written out chunks, Some err))
        /\ (forall n chunk e,
              chunks !! n = Some chunk ->
              accepts out (take n chunks) ->
              snd (io_Write (written out (take n chunks)) chunk) = Some e ->
              Write p out = (written out (take (S n) chunks), Some e))
        /\ (forall buf : list Z,
              Write p buf = (buf ++ magicNumberBytes ++ concat docs, Some err))).
Proof.
  split; [|split].
  - split; [reflexivity|]. split.
    + apply magicNumberBytes_is_byte.
    + apply magicNumberBytes_le_value.
  - intros hdoc docs Hh Hdocs chunks. split; [|split].
    + intros Hacc. rewrite (Write_emit p hdoc docs out Hh Hdocs).
      now apply emit_accepted.
    + intros n chunk err Hn Hacc Herr.
      rewrite (Write_emit p hdoc docs out Hh Hdocs).
      now apply (emit_refused _ out n chunk err).
    + intros buf. now apply Write_into_buffer.
  - intros docs err later Hres chunks.
    destruct (Write_stops_at_marshal_failure p docs err later out Hres chunks
                eq_refl) as [Hacc Hfail].
    split; [exact Hacc|]. split; [exact Hfail|].
    intros buf.
    destruct (Write_stops_at_marshal_failure p docs err later buf Hres chunks
                eq_refl) as [Hbuf _].
    rewrite (Hbuf (buffer_accepts chunks buf)), buffer_written.
    unfold chunks. cbn [concat]. reflexivity.
Qed.

Lemma write_emission_order_witness :
  let hdoc := BSONDocument.document (BSONDocument.Header_fields archived_header) in
  (exists docs,
     @Write mongodump_consts BSONDocument.codec _ Buffer_Writer archived_prelude []
     = ([109; 226; 153; 129] ++ hdoc ++ concat docs ++ [255; 255; 255; 255], None)
     /\ length docs = 4%nat)
  /\ @Write mongodump_consts BSONDocument.codec _ Limited_Writer archived_prelude
       (10%nat, [])
     = ((O, [109; 226; 153; 129] ++ take 6 hdoc), Some "short write").
Proof.
  intros hdoc.
  set (docs := map (fun cm =>
                 BSONDocument.document (BSONDocument.CollectionMetadata_fields cm))
                 archived_records).
  assert (Hh : @Marshal_Header BSONDocument.codec (Prelude.Header archived_prelude)
               = Ok hdoc) by reflexivity.
  assert (Hdocs : Forall2 (fun cm doc =>
                     @Marshal_CollectionMetadata BSONDocument.codec cm = Ok doc)
                    (Prelude.NamespaceMetadatas archived_prelude) docs)
    by (repeat constructor).
  split.
  - exists docs. split; [|reflexivity].
    destruct (@write_emission_order mongodump_consts BSONDocument.codec _
                Buffer_Writer archived_prelude []) as (_ & Hwritten & _).
    destruct (Hwritten hdoc docs Hh Hdocs) as (_ & _ & Hbuf).
    exact (Hbuf []).
  - destruct (@write_emission_order mongodump_consts BSONDocument.codec _
                Limited_Writer archived_prelude (10%nat, [])) as (_ & Hwritten & _).
    destruct (Hwritten hdoc docs Hh Hdocs) as (_ & Hfail & _).
    apply (Hfail 1%nat hdoc "short write").
    + reflexivity.
    + split; [reflexivity|exact I].
    + reflexivity.
Defined.

(** C7 as claimed fails for a Prelude whose header cannot be marshalled:
    the zero Prelude has a nil [Header], and [Write] into a buffer, which
    never refuses a write, puts out the four magic bytes only, with no
    header document, no record and no terminator, and returns the error
    of [bson.Marshal]. *)
Lemma write_of_nil_header_stops_after_magic :
  Prelude.Header Prelude.empty = None
  /\ (forall buf chunk : list Z, snd (io_Write buf chunk) = None)
  /\ exists err,
       @Write mongodump_consts BSONDocument.codec _ Buffer_Writer Prelude.empty []
       = ([109; 226; 153; 129], Some err).
Proof.
  split; [reflexivity|]. split; [reflexivity|].
  now exists "Can't marshal nil as a BSON document".
Qed.

(** ** The block parser *)

Section ParserFacts.
Context {consts : ArchiveConsts}.

Lemma has_prefix_app (pre rest : list Z) : has_prefix pre (pre ++ rest) = true.
Proof.
  induction pre as [|a pre IH]; simpl; [reflexivity|].
  now rewrite Z.eqb_refl.
Qed.

Lemma has_prefix_app_false (pre doc rest : list Z) :
  (length pre <= length doc)%nat ->
  has_prefix pre doc = false ->
  has_prefix pre (doc ++ rest) = false.
Proof.
  revert doc. induction pre as [|a pre IH]; intros doc Hlen Hpre; simpl in *.
  - discriminate.
  - destruct doc as [|b doc]; simpl in *; [lia|].
    destruct (a =? b); simpl in *; [|reflexivity].
    apply IH; [lia|exact Hpre].
Qed.

Lemma read_unit_terminator (rest : list Z) :
  Parser.read_unit (terminatorBytes ++ rest) = Ok (None, rest).
Proof.
  unfold Parser.read_unit. rewrite has_prefix_app.
  now rewrite drop_app_length.
Qed.

Lemma read_unit_document (doc rest : list Z) :
  framed doc -> Parser.read_unit (doc ++ rest) = Ok (Some doc, rest).
Proof.
  intros (H4 & Hsize & Hlen & Hpre). unfold Parser.read_unit.
  rewrite (has_prefix_app_false _ _ _ Hlen Hpre).
  assert (Hlong : (4 <=? length (doc ++ rest))%nat = true).
  { apply Nat.leb_le. rewrite length_app. lia. }
  rewrite Hlong, take_app_le by exact H4. rewrite Hsize.
  assert (Hin : (4 <=? Z.of_nat (length doc))
                && (Z.of_nat (length doc) <=? Z.of_nat (length (doc ++ rest)))
                = true).
  { apply andb_true_iff. rewrite length_app. split; apply Z.leb_le; lia. }
  rewrite Hin, Nat2Z.id.
  now rewrite take_app_length, drop_app_length.
Qed.

(** a unit that was read is taken from the front of the stream; a
    document has at least four bytes *)
Lemma read_unit_shorter (input rest : list Z) (unit : option (list Z)) :
  Parser.read_unit input = Ok (unit, rest) ->
  (length rest <= length input)%nat
  /\ (forall data, unit = Some data -> (length rest < length input)%nat).
Proof.
  unfold Parser.read_unit.
  destruct (has_prefix terminatorBytes input).
  - intros [= <- <-]. rewrite length_drop. split; [lia|discriminate].
  - destruct (4 <=? length input)%nat; [|discriminate].
    destruct (_ && _) eqn:Hin; [|discriminate].
    intros [= <- <-]. apply andb_true_iff in Hin as [Hlo Hhi].
    apply Z.leb_le in Hlo, Hhi. rewrite length_drop. split; lia.
Qed.

(** with more fuel than the stream has bytes the body loop never runs
    out of it: its result does not depend on the fuel *)
Lemma read_bodies_fuel {S : Type} (consumer : ParserConsumer S)
    (fuel fuel' : nat) (input : list Z) (s : S) :
  (length input < fuel)%nat -> (length input < fuel')%nat ->
  Parser.read_bodies fuel consumer input s
  = Parser.read_bodies fuel' consumer input s.
Proof.
  revert fuel' input s.
  induction fuel as [|fuel IH]; intros fuel' input s Hf Hf'; [lia|].
  destruct fuel' as [|fuel']; [lia|]. cbn [Parser.read_bodies].
  destruct (Parser.read_unit input) as [[[data|] rest]|err] eqn:Hunit;
    try reflexivity.
  destruct (BodyBSON consumer data s) as [s' [err|]]; [reflexivity|].
  destruct (read_unit_shorter _ _ _ Hunit) as [_ Hlt].
  specialize (Hlt data eq_refl). apply IH; lia.
Qed.

End ParserFacts.

(** ** Reading back what was written *)

Lemma AddMetadatas_indexes (cms l : list CollectionMetadata.t) (p : Prelude.t) :
  indexes p l -> indexes (Prelude.AddMetadatas p cms) (l ++ cms).
Proof.
  revert p l. induction cms as [|cm cms IH]; intros p l Hidx.
  - now rewrite app_nil_r.
  - rewrite AddMetadatas_cons.
    replace (l ++ cm :: cms) with ((l ++ [cm]) ++ cms) by now rewrite <- app_assoc.
    apply IH. now apply AddMetadata_indexes.
Qed.

Lemma AddMetadatas_DBS_extends (cms : list CollectionMetadata.t) (p : Prelude.t) :
  exists dbs, Prelude.DBS (Prelude.AddMetadatas p cms) = Prelude.DBS p ++ dbs.
Proof.
  revert p. induction cms as [|cm cms IH]; intros p.
  - exists []. simpl. now rewrite app_nil_r.
  - rewrite AddMetadatas_cons. destruct (IH (Prelude.AddMetadata p cm)) as [dbs ->].
    destruct (AddMetadata_DBS_extends p cm) as [dbs' ->].
    exists (dbs' ++ dbs). now rewrite app_assoc.
Qed.

Lemma AddMetadatas_index_made (cms : list CollectionMetadata.t) (p : Prelude.t) :
  cms <> [] \/ Prelude.NamespaceMetadatasByDB p <> None ->
  Prelude.NamespaceMetadatasByDB (Prelude.AddMetadatas p cms) <> None.
Proof.
  revert p. induction cms as [|cm cms IH]; intros p Hp.
  - destruct Hp as [Hp|Hp]; [now elim Hp|exact Hp].
  - rewrite AddMetadatas_cons. apply IH. right. discriminate.
Qed.

(** two indexes that are made and group the same sequence are equal *)
Lemma indexes_unique (p p' : Prelude.t) (l : list CollectionMetadata.t) :
  indexes p l -> indexes p' l ->
  Prelude.NamespaceMetadatasByDB p <> None ->
  Prelude.NamespaceMetadatasByDB p' <> None ->
  Prelude.NamespaceMetadatasByDB p = Prelude.NamespaceMetadatasByDB p'.
Proof.
  unfold indexes, Prelude.index. intros Hp Hp' Hm Hm'.
  destruct (Prelude.NamespaceMetadatasByDB p) as [m|]; [|now elim Hm].
  destruct (Prelude.NamespaceMetadatasByDB p') as [m'|]; [|now elim Hm'].
  f_equal. apply map_eq. intros db. now rewrite Hp, Hp'.
Qed.

Section RoundTrip.
Context {consts : ArchiveConsts} {codec : BSON}.

(** the body loop on the documents of [cms] followed by the terminator
    adds [cms], in order, and stops behind the terminator *)
Lemma read_bodies_records (cms : list CollectionMetadata.t) (docs : list (list Z)) :
  Forall2 (fun cm doc =>
             framed doc
             /\ Unmarshal_CollectionMetadata doc CollectionMetadata.zero = (cm, None))
    cms docs ->
  forall (fuel : nat) (p : Prelude.t) (tail : list Z),
    (length cms < fuel)%nat ->
    Parser.read_bodies fuel preludeParserConsumer
      (concat docs ++ terminatorBytes ++ tail) p
    = (Prelude.AddMetadatas p cms, tail, None).
Proof.
  induction 1 as [|cm doc cms docs [Hframed Hcm] _ IH]; intros fuel p tail Hfuel.
  - destruct fuel as [|fuel]; [simpl in Hfuel; lia|].
    cbn [concat app Parser.read_bodies]. now rewrite read_unit_terminator.
  - destruct fuel as [|fuel]; [simpl in Hfuel; lia|].
    cbn [concat Parser.read_bodies]. rewrite <- app_assoc.
    rewrite (read_unit_document doc _ Hframed).
    cbn [BodyBSON preludeParserConsumer]. rewrite Hcm.
    rewrite AddMetadatas_cons. apply IH. simpl in Hfuel. lia.
Qed.

Lemma round_trips_documents (cms : list CollectionMetadata.t) :
  Forall record_round_trips cms ->
  exists docs,
    Forall2 (fun cm doc => Marshal_CollectionMetadata cm = Ok doc) cms docs
    /\ Forall2 (fun cm doc =>
                  framed doc
                  /\ Unmarshal_CollectionMetadata doc CollectionMetadata.zero
                     = (cm, None)) cms docs
    /\ (length cms <= length (concat docs))%nat.
Proof.
  induction 1 as [|cm cms (doc & Hm & Hframed & Hu) _ (docs & Hms & Hus & Hlen)].
  - exists []. repeat split; constructor.
  - exists (doc :: docs). repeat split; try (constructor; auto).
    cbn [concat]. rewrite length_app. destruct Hframed as (H4 & _).
    simpl. lia.
Qed.

(** C1 (round trip).  Let [P] be built by [AddMetadata] from a non-empty
    list of records, starting from a Prelude that holds nothing but a
    header, and let the BSON codec round-trip that header and those
    records.  Then [Write] of [P] into an empty buffer succeeds, and
    [Read] of the bytes written into the zero Prelude succeeds, consumes
    them all, and yields a Prelude with the flat sequence, the
    by-database index, the header and the database list of [P]. *)
Theorem round_trip (p0 : Prelude.t) (h : Header.t)
    (cms : list CollectionMetadata.t) :
  is_int32 MagicNumber ->
  holds_nothing p0 ->
  Prelude.Header p0 = Some h ->
  cms <> [] ->
  header_round_trips h ->
  Forall record_round_trips cms ->
  let P := Prelude.AddMetadatas p0 cms in
  exists (out : list Z) (P' : Prelude.t),
    Write P [] = (out, None)
    /\ Read Prelude.empty out = (P', [], None)
    /\ Prelude.NamespaceMetadatas P' = Prelude.NamespaceMetadatas P
    /\ Prelude.NamespaceMetadatasByDB P' = Prelude.NamespaceMetadatasByDB P
    /\ Prelude.Header P' = Prelude.Header P
    /\ Prelude.DBS P' = Prelude.DBS P.
Proof.
  intros Hmagic Hempty Hheader Hcms (hdoc & Hmh & Hfh & Huh) Hrecords P.
  destruct (round_trips_documents cms Hrecords) as (docs & Hms & Hus & Hlen).
  assert (Hflat : Prelude.NamespaceMetadatas P = cms).
  { unfold P. rewrite AddMetadatas_flat. now destruct Hempty as (_ & -> & _). }
  assert (HP : dual_view P)
    by (apply AddMetadatas_dual_view, holds_nothing_dual_view, Hempty).
  set (p1 := Prelude.mk (Some h) [] [] None).
  set (P' := Prelude.AddMetadatas p1 cms).
  assert (Hflat' : Prelude.NamespaceMetadatas P' = cms)
    by (unfold P'; now rewrite AddMetadatas_flat).
  assert (HP' : dual_view P').
  { apply AddMetadatas_dual_view, holds_nothing_dual_view. now repeat split. }
  exists (magicNumberBytes ++ hdoc ++ concat docs ++ terminatorBytes), P'.
  split; [|split; [|split; [|split; [|split]]]].
  - assert (Hh : Marshal_Header (Prelude.Header P) = Ok hdoc).
    { unfold P. now rewrite AddMetadatas_Header, Hheader. }
    rewrite <- Hflat in Hms.
    exact (Write_into_buffer P hdoc docs [] Hh Hms).
  - unfold magicNumberBytes at 1. cbn [map app]. rewrite Read_four_bytes.
    fold (map (fun i => byte (Z.shiftr (uint32 MagicNumber) (i * 8))) [0; 1; 2; 3]).
    fold magicNumberBytes.
    rewrite (magicNumberOf_magicNumberBytes Hmagic), Z.eqb_refl.
    cbn [negb Prelude.NamespaceMetadatasByDB Prelude.empty].
    unfold Parser.ReadBlock. rewrite (read_unit_document hdoc _ Hfh).
    cbn [HeaderBSON preludeParserConsumer]. rewrite Huh.
    cbn [Prelude.DBS Prelude.NamespaceMetadatas Prelude.NamespaceMetadatasByDB
           Prelude.empty].
    fold p1. rewrite <- (app_nil_r terminatorBytes).
    apply (read_bodies_records cms docs Hus).
    rewrite !length_app. lia.
  - now rewrite Hflat, Hflat'.
  - destruct HP as [HP _], HP' as [HP' _]. rewrite Hflat in HP. rewrite Hflat' in HP'.
    apply (indexes_unique P' P cms HP' HP);
      apply AddMetadatas_index_made; now left.
  - unfold P', P. now rewrite !AddMetadatas_Header, Hheader.
  - destruct HP as [_ HP], HP' as [_ HP']. now rewrite HP, HP', Hflat, Hflat'.
Qed.

End RoundTrip.

(** ** The BSON codec of the concrete environment *)

Module BSONFacts.
Import BSONDocument.

Lemma le_bytes_length (n : nat) (x : Z) : length (le_bytes n x) = n.
Proof. revert x. induction n as [|n IH]; intros x; simpl; [reflexivity|]. now rewrite IH. Qed.

Lemma le_value_le_bytes (n : nat) (x : Z) :
  le_value (le_bytes n x) = x mod 2 ^ (8 * Z.of_nat n).
Proof.
  revert x. induction n as [|n IH]; intros x.
  - simpl. now rewrite Z.mod_1_r.
  - cbn [le_bytes le_value]. rewrite IH. unfold byte.
    rewrite Z.shiftr_div_pow2 by lia.
    replace (8 * Z.of_nat (S n)) with (8 + 8 * Z.of_nat n) by lia.
    rewrite Z.pow_add_r by lia. change (2 ^ 8) with 256.
    rewrite Z.rem_mul_r; [reflexivity|lia|]. apply Z.pow_pos_nonneg; lia.
Qed.

Lemma take_le_bytes (n : nat) (x : Z) (rest : list Z) :
  take n (le_bytes n x ++ rest) = le_bytes n x.
Proof.
  rewrite <- (le_bytes_length n x) at 1. apply take_app_length.
Qed.

Lemma drop_le_bytes (n : nat) (x : Z) (rest : list Z) :
  drop n (le_bytes n x ++ rest) = rest.
Proof.
  rewrite <- (le_bytes_length n x) at 1. apply drop_app_length.
Qed.

Lemma bytes_string_string_bytes (s : string) : bytes_string (string_bytes s) = s.
Proof.
  unfold bytes_string, string_bytes. rewrite map_map.
  induction s as [|c s IH]; simpl; [reflexivity|].
  now rewrite N2Z.id, ascii_N_embedding, IH.
Qed.

Lemma string_bytes_length (s : string) :
  length (string_bytes s) = String.length s.
Proof.
  unfold string_bytes. rewrite length_map.
  induction s as [|c s IH]; simpl; [reflexivity|now rewrite IH].
Qed.

Lemma signed_mod (bits x : Z) :
  0 < bits -> - 2 ^ (bits - 1) <= x < 2 ^ (bits - 1) ->
  signed bits (x mod 2 ^ bits) = x.
Proof.
  intros Hbits Hx. unfold signed.
  assert (Hpow : 2 ^ bits = 2 * 2 ^ (bits - 1)).
  { replace bits with (1 + (bits - 1)) at 1 by lia.
    rewrite Z.pow_add_r by lia. reflexivity. }
  assert (Hpos : 0 < 2 ^ (bits - 1)) by (apply Z.pow_pos_nonneg; lia).
  rewrite Hpow. set (M := 2 ^ (bits - 1)) in *.
  assert (0 <= x \/ x < 0) as [Hx0|Hx0] by lia.
  - rewrite Z.mod_small by lia.
    destruct (Z.ltb_spec x M); lia.
  - replace (x mod (2 * M)) with (x + 2 * M).
    + destruct (Z.ltb_spec (x + 2 * M) M); lia.
    + apply (Z.mod_unique x (2 * M) (-1)); lia.
Qed.

Lemma read_string_value (s : string) (rest : list Z) :
  Z.of_nat (String.length s) + 1 < 2 ^ 32 ->
  read_value 2
    (le_bytes 4 (Z.of_nat (length (string_bytes s)) + 1)
       ++ string_bytes s ++ [0] ++ rest)
  = Some (VString s, rest).
Proof.
  intros Hlen. unfold read_value. cbn [Z.eqb Pos.eqb].
  rewrite take_le_bytes, le_value_le_bytes, string_bytes_length.
  change (8 * Z.of_nat 4) with 32. rewrite Z.mod_small by lia.
  replace (Z.to_nat (Z.of_nat (String.length s) + 1)) with (S (String.length s)) by lia.
  rewrite drop_le_bytes.
  assert (Hpayload : length (string_bytes s ++ [0]) = S (String.length s)).
  { rewrite length_app, string_bytes_length. simpl. lia. }
  rewrite (app_assoc (string_bytes s) [0] rest).
  assert (Htake : take (S (String.length s)) ((string_bytes s ++ [0]) ++ rest)
                  = string_bytes s ++ [0])
    by (rewrite <- Hpayload; apply take_app_length).
  assert (Hdrop : drop (S (String.length s)) ((string_bytes s ++ [0]) ++ rest)
                  = rest)
    by (rewrite <- Hpayload; apply drop_app_length).
  rewrite Htake, Hpayload, Nat.eqb_refl, last_last, Z.eqb_refl.
  replace (4 <=? _)%nat with true
    by (symmetry; apply Nat.leb_le; rewrite length_app, le_bytes_length; lia).
  cbn [andb Nat.leb].
  replace (S (String.length s) - 1)%nat with (length (string_bytes s))
    by (rewrite string_bytes_length; lia).
  rewrite take_app_length, bytes_string_string_bytes.
  now rewrite <- drop_drop, drop_le_bytes, Hdrop.
Qed.

Lemma read_int32_value (x : Z) (rest : list Z) :
  - 2 ^ 31 <= x < 2 ^ 31 ->
  read_value 16 (le_bytes 4 x ++ rest) = Some (VInt x, rest).
Proof.
  intros Hx. unfold read_value. cbn [Z.eqb Pos.eqb].
  replace (4 <=? _)%nat with true
    by (symmetry; apply Nat.leb_le; rewrite length_app, le_bytes_length; lia).
  rewrite take_le_bytes, drop_le_bytes, le_value_le_bytes.
  change (8 * Z.of_nat 4) with 32. now rewrite signed_mod by lia.
Qed.

Lemma read_int64_value (x : Z) (rest : list Z) :
  - 2 ^ 63 <= x < 2 ^ 63 ->
  read_value 18 (le_bytes 8 x ++ rest) = Some (VInt x, rest).
Proof.
  intros Hx. unfold read_value. cbn [Z.eqb Pos.eqb].
  replace (8 <=? _)%nat with true
    by (symmetry; apply Nat.leb_le; rewrite length_app, le_bytes_length; lia).
  rewrite take_le_bytes, drop_le_bytes, le_value_le_bytes.
  change (8 * Z.of_nat 8) with 64. now rewrite signed_mod by lia.
Qed.

Lemma read_cstring_key (key : string) (rest : list Z) :
  plain_key key ->
  read_cstring (cstring key ++ rest) = Some (string_bytes key, rest).
Proof.
  unfold plain_key, cstring.
  induction (string_bytes key) as [|b bs IH]; simpl; [reflexivity|].
  intros Hkey. apply andb_true_iff in Hkey as [Hb Hbs].
  apply negb_true_iff in Hb. rewrite Hb. simpl in IH. now rewrite (IH Hbs).
Qed.

Lemma element_nonempty (key : string) (v : value) :
  exists ty body, element key v = ty :: body /\ body <> [].
Proof.
  destruct v as [s|x]; unfold element; [|destruct (_ && _)];
    eexists _, _; (split; [reflexivity|]);
    unfold cstring; destruct (string_bytes key); discriminate.
Qed.

Lemma read_element (key : string) (v : value) (rest : list Z) :
  plain_key key -> encodable v ->
  exists ty body,
    element key v ++ rest = ty :: cstring key ++ body
    /\ read_value ty body = Some (v, rest).
Proof.
  intros Hkey Hv. destruct v as [s|x]; unfold element.
  - exists 2, (le_bytes 4 (Z.of_nat (length (string_bytes s)) + 1)
               ++ string_bytes s ++ [0] ++ rest).
    split; [|now apply read_string_value].
    cbn [app]. now rewrite <- !app_assoc.
  - destruct (_ && _) eqn:Hfit.
    + exists 16, (le_bytes 4 x ++ rest). split.
      * cbn [app]. now rewrite <- !app_assoc.
      * apply andb_true_iff in Hfit as [Hlo Hhi].
        apply Z.leb_le in Hlo. apply Z.ltb_lt in Hhi. now apply read_int32_value.
    + exists 18, (le_bytes 8 x ++ rest). split.
      * cbn [app]. now rewrite <- !app_assoc.
      * now apply read_int64_value.
Qed.

Lemma read_elements_fields (fields : list (string * value)) :
  Forall (fun kv => plain_key (fst kv) /\ encodable (snd kv)) fields ->
  forall fuel : nat,
    (length fields < fuel)%nat ->
    read_elements fuel
      (concat (map (fun kv => element (fst kv) (snd kv)) fields) ++ [0])
    = Some fields.
Proof.
  induction 1 as [|[key v] fields [Hkey Hv] _ IH]; intros fuel Hfuel.
  - destruct fuel as [|fuel]; [simpl in Hfuel; lia|]. reflexivity.
  - destruct fuel as [|fuel]; [simpl in Hfuel; lia|].
    cbn [map concat fst snd]. rewrite <- app_assoc.
    destruct (read_element key v
                (concat (map (fun kv => element (fst kv) (snd kv)) fields) ++ [0])
                Hkey Hv) as (ty & body & -> & Hvalue).
    cbn [read_elements].
    assert (Hbody : cstring key ++ body <> []).
    { unfold cstring. destruct (string_bytes key); discriminate. }
    destruct (cstring key ++ body) as [|b bs] eqn:Hcb; [now elim Hbody|].
    rewrite <- Hcb, (read_cstring_key key body Hkey), Hvalue.
    rewrite IH by (simpl in Hfuel; lia).
    now rewrite bytes_string_string_bytes.
Qed.

Lemma fields_shorter (fields : list (string * value)) :
  (length fields
   <= length (concat (map (fun kv => element (fst kv) (snd kv)) fields)))%nat.
Proof.
  induction fields as [|[key v] fields IH]; cbn [map concat fst snd length]; [lia|].
  destruct (element_nonempty key v) as (ty & body & -> & _).
  rewrite length_app. simpl. lia.
Qed.

Lemma document_length (fields : list (string * value)) :
  length (document fields)
  = (length (concat (map (fun kv => element (fst kv) (snd kv)) fields)) + 5)%nat.
Proof.
  unfold document. rewrite !length_app, le_bytes_length. simpl. lia.
Qed.

Lemma parse_document (fields : list (string * value)) :
  Forall (fun kv => plain_key (fst kv) /\ encodable (snd kv)) fields ->
  Z.of_nat (length (document fields)) < 2 ^ 31 ->
  parse (document fields) = Some fields.
Proof.
  intros Hfields Hlen. unfold parse.
  pose proof (document_length fields) as Hdoc.
  pose proof (fields_shorter fields) as Hshort.
  unfold document in *. cbv zeta in *.
  set (body := concat (map (fun kv => element (fst kv) (snd kv)) fields)) in *.
  rewrite take_le_bytes, drop_le_bytes, le_value_le_bytes.
  change (8 * Z.of_nat 4) with 32.
  rewrite Z.mod_small by lia.
  replace (5 <=? _)%nat with true by (symmetry; apply Nat.leb_le; lia).
  replace (_ =? _) with true by (symmetry; apply Z.eqb_eq; lia).
  cbn [andb]. apply read_elements_fields; [exact Hfields|lia].
Qed.

Lemma has_prefix_take (pre s : list Z) :
  has_prefix pre s = true -> take (length pre) s = pre.
Proof.
  revert s. induction pre as [|a pre IH]; intros s; simpl; [reflexivity|].
  destruct s as [|b s]; [discriminate|].
  intros H. apply andb_true_iff in H as [Hab Hpre].
  apply Z.eqb_eq in Hab. simpl. now rewrite Hab, IH.
Qed.

(** a document shorter than 2^31 bytes is framed for the block parser of
    the mongodump archive format *)
Lemma document_framed (fields : list (string * value)) :
  Z.of_nat (length (document fields)) < 2 ^ 31 ->
  @framed mongodump_consts (document fields).
Proof.
  intros Hlen. pose proof (document_length fields) as Hdoc.
  assert (Hvalue : le_value (take 4 (document fields))
                   = Z.of_nat (length (document fields))).
  { rewrite Hdoc. unfold document. cbv zeta.
    rewrite take_le_bytes, le_value_le_bytes.
    change (8 * Z.of_nat 4) with 32. rewrite Hdoc in Hlen.
    rewrite Z.mod_small; lia. }
  unfold framed. cbn [terminatorBytes mongodump_consts length].
  split; [lia|]. split; [|split; [lia|]].
  - rewrite Hvalue. unfold int32.
    change (2 ^ 32) with 4294967296. change (2 ^ 31) with 2147483648 in *.
    Z.div_mod_to_equations. lia.
  - destruct (has_prefix [255; 255; 255; 255] (document fields)) eqn:Hpre;
      [|reflexivity].
    apply has_prefix_take in Hpre. cbn [length] in Hpre.
    rewrite Hpre in Hvalue.
    change (le_value [255; 255; 255; 255]) with 4294967295 in Hvalue.
    change (2 ^ 31) with 2147483648 in Hlen. lia.
Qed.

Lemma string_shorter (key : string) (s : string) :
  (String.length s < length (element key (VString s)))%nat.
Proof.
  unfold element. rewrite !length_app, string_bytes_length. simpl. lia.
Qed.

Ltac fields_by_computation :=
  repeat (apply Forall_cons; split;
          [split; [reflexivity | cbn [fst snd encodable]; lia]|]);
  constructor.

(** the codec round-trips every record whose document is shorter than
    2^31 bytes and whose size is a 64-bit integer *)
Lemma record_encodable (cm : CollectionMetadata.t) :
  Z.of_nat (length (document (CollectionMetadata_fields cm))) < 2 ^ 31 ->
  - 2 ^ 63 <= CollectionMetadata.Size cm < 2 ^ 63 ->
  @record_round_trips mongodump_consts codec cm.
Proof.
  intros Hlen Hsize. exists (document (CollectionMetadata_fields cm)).
  split; [reflexivity|]. split; [now apply document_framed|].
  cbn [Unmarshal_CollectionMetadata codec]. rewrite parse_document.
  - now destruct cm.
  - pose proof (string_shorter "database" (CollectionMetadata.Database cm)).
    pose proof (string_shorter "collection" (CollectionMetadata.Collection cm)).
    pose proof (string_shorter "metadata" (CollectionMetadata.Metadata cm)).
    rewrite document_length in Hlen.
    cbn [CollectionMetadata_fields map concat fst snd] in Hlen.
    rewrite !length_app in Hlen.
    change (2 ^ 31) with 2147483648 in Hlen.
    change (2 ^ 32) with 4294967296. fields_by_computation.
  - exact Hlen.
Qed.

Lemma header_encodable (h : Header.t) :
  Z.of_nat (length (document (Header_fields h))) < 2 ^ 31 ->
  - 2 ^ 31 <= Header.ConcurrentCollections h < 2 ^ 31 ->
  @header_round_trips mongodump_consts codec h.
Proof.
  intros Hlen Hcc. exists (document (Header_fields h)).
  split; [reflexivity|]. split; [now apply document_framed|].
  cbn [Unmarshal_Header codec]. rewrite parse_document.
  - now destruct h.
  - pose proof (string_shorter "archiveformatversion" (Header.ArchiveFormatVersion h)).
    rewrite document_length in Hlen.
    cbn [Header_fields map concat fst snd] in Hlen.
    rewrite !length_app in Hlen.
    change (2 ^ 31) with 2147483648 in Hlen.
    change (2 ^ 32) with 4294967296. fields_by_computation.
  - exact Hlen.
Qed.

End BSONFacts.

Ltac bound_by_computation :=
  first [ apply Z.ltb_lt; vm_compute; reflexivity
        | split; [apply Z.leb_le | apply Z.ltb_lt]; vm_compute; reflexivity ].

Lemma round_trip_witness :
  exists (out : list Z) (P' : Prelude.t),
    @Write mongodump_consts BSONDocument.codec _ Buffer_Writer archived_prelude []
    = (out, None)
    /\ @Read mongodump_consts BSONDocument.codec Prelude.empty out = (P', [], None)
    /\ Prelude.NamespaceMetadatas P' = archived_records
    /\ Prelude.DBS P' = ["db1"; "db2"; ""].
Proof.
  destruct (@round_trip mongodump_consts BSONDocument.codec
              (Prelude.mk (Some archived_header) [] [] (Some ∅))
              archived_header archived_records)
    as (out & P' & Hw & Hr & Hflat & _ & _ & Hdbs).
  - unfold is_int32. simpl. lia.
  - repeat split.
  - reflexivity.
  - discriminate.
  - apply BSONFacts.header_encodable; bound_by_computation.
  - repeat constructor; apply BSONFacts.record_encodable; bound_by_computation.
  - exists out, P'. repeat split; assumption.
Defined.

(** ** Prelude.Read on a Prelude that already has records *)

Section ReadAgain.
Context {consts : ArchiveConsts} {codec : BSON}.

(** a unit is the front of the stream it was read from *)
Lemma has_prefix_true (pre s : list Z) :
  has_prefix pre s = true -> s = pre ++ drop (length pre) s.
Proof.
  revert s. induction pre as [|a pre IH]; intros s Hpre; [reflexivity|].
  destruct s as [|b s]; [discriminate Hpre|]. cbn [has_prefix] in Hpre.
  apply andb_true_iff in Hpre as [Hab Hpre]. apply Z.eqb_eq in Hab as ->.
  cbn [length drop app]. f_equal. now apply IH.
Qed.

Lemma read_unit_front (input rest : list Z) (unit : option (list Z)) :
  Parser.read_unit input = Ok (unit, rest) ->
  input = match unit with
          | Some doc => doc
          | None => terminatorBytes
          end ++ rest.
Proof.
  unfold Parser.read_unit.
  destruct (has_prefix terminatorBytes input) eqn:Hpre.
  - intros [= <- <-]. now apply has_prefix_true.
  - destruct (4 <=? length input)%nat; [|discriminate].
    destruct (_ && _); [|discriminate].
    intros [= <- <-]. now rewrite take_drop.
Qed.

(** what the body loop stores is what the stream holds: the records
    decoded from its leading documents; a loop that ends without error
    has read them up to the terminator *)
Lemma read_bodies_stores (fuel : nat) (input rest : list Z) (s s' : Prelude.t)
    (err : option error) :
  Parser.read_bodies fuel preludeParserConsumer input s = (s', rest, err) ->
  s' = Prelude.AddMetadatas s (map decoded (body_documents fuel input))
  /\ (err = None ->
      input = concat (body_documents fuel input) ++ terminatorBytes ++ rest).
Proof.
  revert input s. induction fuel as [|fuel IH]; intros input s;
    cbn [Parser.read_bodies body_documents].
  - intros [= <- _ <-]. split; [reflexivity|discriminate].
  - destruct (Parser.read_unit input) as [[[data|] rest0]|e] eqn:Hunit.
    + apply read_unit_front in Hunit.
      cbn [BodyBSON preludeParserConsumer]. unfold decodes, decoded.
      destruct (Unmarshal_CollectionMetadata data CollectionMetadata.zero)
        as [cm [e|]] eqn:Hcm; cbn [fst snd].
      * intros [= <- _ <-]. split; [reflexivity|discriminate].
      * intros Hrest. destruct (IH _ _ Hrest) as [-> Hlayout].
        split.
        -- cbn [map]. rewrite AddMetadatas_cons. now rewrite Hcm.
        -- intros Herr. cbn [concat]. rewrite <- app_assoc, <- (Hlayout Herr).
           exact Hunit.
    + apply read_unit_front in Hunit.
      cbn [End_ preludeParserConsumer]. intros [= <- <- _].
      split; [reflexivity|]. intros _. exact Hunit.
    + intros [= <- _ <-]. split; [reflexivity|discriminate].
Qed.

(** [Read] stores the records of [stored_documents]: however it ends, the
    Prelude it leaves is the old one, with another header maybe and its
    index reset when the parser was reached, after [AddMetadata] of these
    records in order *)
Lemma Read_stores (p p' : Prelude.t) (input rest : list Z) (err : option error) :
  Read p input = (p', rest, err) ->
  (exists header index,
     p' = Prelude.AddMetadatas
            (Prelude.mk header (Prelude.DBS p) (Prelude.NamespaceMetadatas p) index)
            (map decoded (stored_documents input))
     /\ (err = None ->
         index = match Prelude.NamespaceMetadatasByDB p with
                 | Some _ => Some ∅
                 | None => None
                 end))
  /\ (err = None ->
      magicNumberOf (take 4 input) = MagicNumber
      /\ exists hdoc,
           drop 4 input
           = hdoc ++ concat (stored_documents input) ++ terminatorBytes ++ rest).
Proof.
  assert (Hsame : forall docs (e : error), docs = [] ->
            exists header index,
              p = Prelude.AddMetadatas
                    (Prelude.mk header (Prelude.DBS p)
                       (Prelude.NamespaceMetadatas p) index)
                    (map decoded docs)
              /\ (Some e = None ->
                  index = match Prelude.NamespaceMetadatasByDB p with
                          | Some _ => Some ∅
                          | None => None
                          end)).
  { intros docs e ->.
    exists (Prelude.Header p), (Prelude.NamespaceMetadatasByDB p).
    split; [now destruct p|discriminate]. }
  intros Hread.
  destruct input as [|b0 [|b1 [|b2 [|b3 input]]]];
    try (injection Hread as <- _ <-; split; [now apply Hsame|discriminate]).
  rewrite Read_four_bytes in Hread. unfold stored_documents.
  change (4 <=? length (b0 :: b1 :: b2 :: b3 :: input))%nat with true.
  change (take 4 (b0 :: b1 :: b2 :: b3 :: input)) with [b0; b1; b2; b3].
  change (drop 4 (b0 :: b1 :: b2 :: b3 :: input)) with input.
  cbn [andb].
  destruct (magicNumberOf [b0; b1; b2; b3] =? MagicNumber) eqn:Hmagic;
    cbn [negb] in Hread;
    [|injection Hread as <- _ <-; split; [now apply Hsame|discriminate]].
  apply Z.eqb_eq in Hmagic.
  set (q := match Prelude.NamespaceMetadatasByDB p with
            | Some _ =>
                Prelude.mk (Prelude.Header p) (Prelude.DBS p)
                  (Prelude.NamespaceMetadatas p) (Some ∅)
            | None => p
            end) in Hread.
  assert (Hq : Prelude.DBS q = Prelude.DBS p
               /\ Prelude.NamespaceMetadatas q = Prelude.NamespaceMetadatas p
               /\ Prelude.NamespaceMetadatasByDB q
                  = match Prelude.NamespaceMetadatasByDB p with
                    | Some _ => Some ∅
                    | None => None
                    end).
  { unfold q. destruct (Prelude.NamespaceMetadatasByDB p) eqn:Hidx;
      [now repeat split|]. now rewrite Hidx. }
  destruct Hq as (Hdbs & Hflat & Hindex).
  assert (Hkept : forall header,
            Prelude.mk header (Prelude.DBS q) (Prelude.NamespaceMetadatas q)
              (Prelude.NamespaceMetadatasByDB q)
            = Prelude.mk header (Prelude.DBS p) (Prelude.NamespaceMetadatas p)
                match Prelude.NamespaceMetadatasByDB p with
                | Some _ => Some ∅
                | None => None
                end)
    by (intros header; now rewrite Hdbs, Hflat, Hindex).
  set (reset := match Prelude.NamespaceMetadatasByDB p with
                | Some _ => Some ∅
                | None => None
                end) in *.
  assert (Hq' : q = Prelude.mk (Prelude.Header q) (Prelude.DBS p)
                      (Prelude.NamespaceMetadatas p) reset)
    by (rewrite <- Hkept; now destruct q).
  unfold Parser.ReadBlock in Hread.
  destruct (Parser.read_unit input) as [[[hdoc|] tail]|e] eqn:Hunit.
  - apply read_unit_front in Hunit.
    cbn [HeaderBSON preludeParserConsumer] in Hread.
    destruct (Unmarshal_Header hdoc Header.zero) as [header [e|]]; cbn [snd].
    + injection Hread as <- _ <-. split; [|discriminate].
      exists (Some header), reset. split; [exact (Hkept _)|discriminate].
    + destruct (read_bodies_stores _ _ _ _ _ _ Hread) as [-> Hlayout].
      split.
      * exists (Some header), reset. split; [now rewrite Hkept|reflexivity].
      * intros Herr. split; [exact Hmagic|]. exists hdoc.
        now rewrite <- (Hlayout Herr).
  - injection Hread as <- _ <-. split; [|discriminate].
    exists (Prelude.Header q), reset. split; [exact Hq'|discriminate].
  - injection Hread as <- _ <-. split; [|discriminate].
    exists (Prelude.Header q), reset. split; [exact Hq'|discriminate].
Qed.

(** C10 (what a second [Read] keeps).  [Read] never clears the flat
    sequence or the database list.  The records that a [Read] adds are
    fixed by the stream: they are the records decoded from the body
    documents that follow the magic number and the header document, up
    to the terminator or to the first unit that is not a document that
    decodes ([stored_documents]).  However the [Read] ends, the flat
    sequence is the old one followed by these records, in order, and the
    database list starts with the old one.  When the [Read] succeeds,
    the stream was the magic number, a header document, these body
    documents and the terminator, and what is left of it is behind the
    terminator; if the index was not nil before, the new index is not
    nil and is the grouping of the records of this [Read] alone: every
    group in it is made of them, and the records from before are not
    reached through it. *)
Theorem read_keeps_sequence_resets_index (p p' : Prelude.t) (input rest : list Z)
    (err : option error) :
  Prelude.NamespaceMetadatas p <> [] ->
  Read p input = (p', rest, err) ->
  let parsed := map decoded (stored_documents input) in
  Prelude.NamespaceMetadatas p' = Prelude.NamespaceMetadatas p ++ parsed
  /\ (exists dbs, Prelude.DBS p' = Prelude.DBS p ++ dbs)
  /\ (err = None ->
      (magicNumberOf (take 4 input) = MagicNumber
       /\ exists hdoc,
            drop 4 input
            = hdoc ++ concat (stored_documents input) ++ terminatorBytes ++ rest)
      /\ (Prelude.NamespaceMetadatasByDB p <> None ->
          Prelude.NamespaceMetadatasByDB p' <> None
          /\ (forall db,
                Prelude.index (Prelude.NamespaceMetadatasByDB p') db
                = group_of db parsed)
          /\ (forall db g,
                Prelude.index (Prelude.NamespaceMetadatasByDB p') db = Some g ->
                g = of_database db parsed))).
Proof.
  intros _ Hread parsed.
  destruct (Read_stores _ _ _ _ _ Hread)
    as ((header & index & -> & Hindex) & Hlayout).
  fold parsed. split; [|split].
  - now rewrite AddMetadatas_flat.
  - exact (AddMetadatas_DBS_extends parsed
             (Prelude.mk header (Prelude.DBS p) (Prelude.NamespaceMetadatas p)
                index)).
  - intros Herr. split; [exact (Hlayout Herr)|].
    intros Hmade. rewrite (Hindex Herr).
    destruct (Prelude.NamespaceMetadatasByDB p) as [m|]; [|now elim Hmade].
    assert (Hidx : indexes
                     (Prelude.AddMetadatas
                        (Prelude.mk header (Prelude.DBS p)
                           (Prelude.NamespaceMetadatas p) (Some ∅)) parsed)
                     parsed).
    { apply (AddMetadatas_indexes parsed []). intros db. apply lookup_empty. }
    split; [|split].
    + apply AddMetadatas_index_made. right. discriminate.
    + exact Hidx.
    + intros db g Hg. rewrite Hidx in Hg. now apply group_of_Some in Hg.
Qed.

End ReadAgain.

Lemma read_keeps_sequence_resets_index_witness :
  exists (input : list Z) (p' : Prelude.t),
    @Read mongodump_consts BSONDocument.codec tree_prelude input = (p', [], None)
    /\ Prelude.NamespaceMetadatas p'
       = Prelude.NamespaceMetadatas tree_prelude ++ archived_records
    /\ forall db g,
         Prelude.index (Prelude.NamespaceMetadatasByDB p') db = Some g ->
         g = of_database db archived_records.
Proof.
  set (out := fst (@Write mongodump_consts BSONDocument.codec _ Buffer_Writer
                     archived_prelude [])).
  set (p' := fst (fst (@Read mongodump_consts BSONDocument.codec tree_prelude out))).
  assert (Hread : @Read mongodump_consts BSONDocument.codec tree_prelude out
                  = (p', [], None)) by (vm_compute; reflexivity).
  assert (Hparsed : map (@decoded BSONDocument.codec)
                      (@stored_documents mongodump_consts BSONDocument.codec out)
                    = archived_records) by (vm_compute; reflexivity).
  exists out, p'. split; [exact Hread|].
  destruct (@read_keeps_sequence_resets_index mongodump_consts BSONDocument.codec
              tree_prelude p' out [] None)
    as (Hflat & _ & Hindex).
  - discriminate.
  - exact Hread.
  - rewrite Hparsed in Hflat, Hindex. split; [exact Hflat|].
    apply Hindex; [reflexivity|discriminate].
Defined.

(* ===================================================================== *)
(** * Further properties *)
(* ===================================================================== *)

(** ** NewPrelude *)

Section NewPreludeFacts.
Context {version : ArchiveVersion}.

(** every intent can be taken, or there is a first one that cannot *)
Lemma archivable_or_offender (allIntents : list ManagedIntent.t) :
  Forall archivable allIntents
  \/ exists taken intent rest,
       allIntents = taken ++ intent :: rest
       /\ Forall archivable taken /\ ~ archivable intent.
Proof.
  induction allIntents as [|intent rest IH]; [left; constructor|].
  assert (Hintent : archivable intent \/ ~ archivable intent).
  { unfold archivable.
    destruct (ManagedIntent.MetadataFile intent) as [[[md|]|mpf|]|]; tauto. }
  destruct Hintent as [Hok|Hbad].
  - destruct IH as [Hall|(taken & bad & rest' & -> & Htaken & Hbad)].
    + left. now constructor.
    + right. exists (intent :: taken), bad, rest'.
      split; [reflexivity|]. split; [now constructor|exact Hbad].
  - right. exists [], intent, rest. split; [reflexivity|].
    split; [constructor|exact Hbad].
Qed.

Lemma NewPrelude_loop_archivable (allIntents : list ManagedIntent.t) :
  Forall archivable allIntents ->
  forall p,
    NewPrelude_loop allIntents p
    = Returned (Ok (Prelude.AddMetadatas p (map record_of allIntents))).
Proof.
  induction 1 as [|intent rest Hintent _ IH]; intros p; [reflexivity|].
  cbn [NewPrelude_loop map]. rewrite AddMetadatas_cons.
  unfold record_of at 1. unfold archivable in Hintent.
  destruct (ManagedIntent.MetadataFile intent) as [[[md|]|mpf|]|];
    try contradiction; apply IH.
Qed.

Lemma NewPrelude_loop_offender (taken : list ManagedIntent.t)
    (intent : ManagedIntent.t) (rest : list ManagedIntent.t) :
  Forall archivable taken ->
  ~ archivable intent ->
  forall p,
    NewPrelude_loop (taken ++ intent :: rest) p
    = match ManagedIntent.MetadataFile intent with
      | Some (ArchiveMetadata None) => Panicked nil_dereference
      | _ => Returned (Err "MetadataFile is not an archive.Metadata")
      end.
Proof.
  intros Htaken Hbad.
  induction Htaken as [|ok taken Hok _ IH]; intros p; cbn [app NewPrelude_loop].
  - unfold archivable in Hbad.
    destruct (ManagedIntent.MetadataFile intent) as [[[md|]|mpf|]|];
      try reflexivity; now elim Hbad.
  - unfold archivable in Hok.
    destruct (ManagedIntent.MetadataFile ok) as [[[md|]|mpf|]|];
      try contradiction; apply IH.
Qed.

Lemma NewPrelude_built (allIntents : list ManagedIntent.t) (maxProcs : Z)
    (p : Prelude.t) :
  NewPrelude allIntents maxProcs = Returned (Ok p) ->
  Forall archivable allIntents
  /\ p = Prelude.AddMetadatas
          (Prelude.mk (Some (Header.mk archiveFormatVersion (int32 maxProcs)))
             [] [] (Some ∅))
          (map record_of allIntents).
Proof.
  unfold NewPrelude. intros Hnew.
  destruct (archivable_or_offender allIntents)
    as [Hall|(taken & intent & rest & -> & Htaken & Hbad)].
  - rewrite (NewPrelude_loop_archivable _ Hall) in Hnew.
    split; [exact Hall|]. now injection Hnew as <-.
  - rewrite (NewPrelude_loop_offender taken intent rest Htaken Hbad) in Hnew.
    destruct (ManagedIntent.MetadataFile intent) as [[[md|]|mpf|]|];
      discriminate Hnew.
Qed.

(** X1.  [NewPrelude] returns a Prelude exactly when every intent has no
    metadata file or one of type [*Metadata] whose pointer is not nil.
    Otherwise the first intent that is not so decides, whatever the other
    intents are: a metadata file of another type makes [NewPrelude] return
    the not-an-archive-Metadata error and no Prelude; a nil [*Metadata]
    makes it panic, with the nil pointer dereference of
    [archiveMetadata.Buffer]. *)
Theorem NewPrelude_accepts_archive_metadata_only
    (allIntents : list ManagedIntent.t) (maxProcs : Z) :
  (Forall archivable allIntents <->
   exists p, NewPrelude allIntents maxProcs = Returned (Ok p))
  /\ (forall taken intent rest,
        allIntents = taken ++ intent :: rest ->
        Forall archivable taken ->
        ~ archivable intent ->
        NewPrelude allIntents maxProcs
        = match ManagedIntent.MetadataFile intent with
          | Some (ArchiveMetadata None) => Panicked nil_dereference
          | _ => Returned (Err "MetadataFile is not an archive.Metadata")
          end).
Proof.
  split.
  - split.
    + intros Hall. eexists. unfold NewPrelude.
      now apply NewPrelude_loop_archivable.
    + intros [p Hp]. now apply NewPrelude_built in Hp as [Hall _].
  - intros taken intent rest -> Htaken Hbad. unfold NewPrelude.
    now apply NewPrelude_loop_offender.
Qed.

(** X2.  The Prelude that [NewPrelude] returns has the header of the
    current format version and [int32(maxProcs)]; its flat sequence has
    one record per intent, in the order of the intents, with the text of
    the intent's metadata buffer (empty without a metadata file) and
    size 0; its index is not nil, also for no intents, and groups the flat
    sequence by database; its database list is the databases of the
    intents, each once, in first-seen order. *)
Theorem NewPrelude_contents (allIntents : list ManagedIntent.t) (maxProcs : Z)
    (p : Prelude.t) :
  NewPrelude allIntents maxProcs = Returned (Ok p) ->
  Prelude.Header p = Some (Header.mk archiveFormatVersion (int32 maxProcs))
  /\ Prelude.NamespaceMetadatas p = map record_of allIntents
  /\ Prelude.NamespaceMetadatasByDB p <> None
  /\ (forall db,
        Prelude.index (Prelude.NamespaceMetadatasByDB p) db
        = group_of db (map record_of allIntents))
  /\ Prelude.DBS p = first_seen (map ManagedIntent.DB allIntents)
  /\ NoDup (Prelude.DBS p).
Proof.
  intros Hnew. apply NewPrelude_built in Hnew as [_ ->].
  set (p0 := Prelude.mk (Some (Header.mk archiveFormatVersion (int32 maxProcs)))
               [] [] (Some ∅)) in *.
  assert (Hempty : holds_nothing p0) by (repeat split).
  destruct (AddMetadatas_dual_view (map record_of allIntents) p0
              (holds_nothing_dual_view p0 Hempty)) as [Hidx Hdbs].
  assert (Hflat : Prelude.NamespaceMetadatas
                    (Prelude.AddMetadatas p0 (map record_of allIntents))
                  = map record_of allIntents)
    by (now rewrite AddMetadatas_flat).
  rewrite Hflat in Hidx, Hdbs.
  assert (Hnames : map CollectionMetadata.Database (map record_of allIntents)
                   = map ManagedIntent.DB allIntents)
    by (rewrite map_map; reflexivity).
  rewrite Hnames in Hdbs.
  split; [now rewrite AddMetadatas_Header|]. split; [exact Hflat|].
  split; [apply AddMetadatas_index_made; right; discriminate|].
  split; [exact Hidx|]. split; [exact Hdbs|].
  rewrite Hdbs. apply first_seen_NoDup.
Qed.

Lemma Size_loop_zero (nss : list CollectionMetadata.t) (pe : PreludeExplorer.t) :
  Forall (fun ns => CollectionMetadata.Size ns = 0) nss ->
  PreludeExplorer.Size_loop nss pe = 0.
Proof.
  induction 1 as [|ns nss Hns _ IH]; simpl; [reflexivity|].
  now destruct (_ && _).
Qed.

(** X3.  [NewPrelude] sets no sizes: every entry of an explorer over the
    Prelude it returns, file or directory, reports size 0. *)
Theorem NewPrelude_sizes_zero (allIntents : list ManagedIntent.t) (maxProcs : Z)
    (p : Prelude.t) (pe : PreludeExplorer.t) :
  NewPrelude allIntents maxProcs = Returned (Ok p) ->
  PreludeExplorer.prelude pe = p ->
  PreludeExplorer.Size pe = 0.
Proof.
  intros Hnew Hp. apply NewPrelude_built in Hnew as [_ Hnew].
  unfold PreludeExplorer.Size. destruct (PreludeExplorer.IsDir pe); [reflexivity|].
  rewrite Hp, Hnew, AddMetadatas_flat. cbn [Prelude.NamespaceMetadatas app].
  apply Size_loop_zero.
  apply Forall_forall. intros ns Hns.
  apply list_elem_of_fmap in Hns as (intent & -> & _). reflexivity.
Qed.

End NewPreludeFacts.

Lemma NewPrelude_accepts_archive_metadata_only_witness :
  (exists p, @NewPrelude version_0_1 dumped_intents 4 = Returned (Ok p))
  /\ @NewPrelude version_0_1
       (dumped_intents ++ [ManagedIntent.mk "db3" "c4" (Some OtherFile);
                           ManagedIntent.mk "db3" "c5" None]) 4
     = Returned (Err "MetadataFile is not an archive.Metadata")
  /\ @NewPrelude version_0_1
       (dumped_intents ++ [ManagedIntent.mk "db3" "c4" (Some (ArchiveMetadata None));
                           ManagedIntent.mk "db3" "c5" (Some OtherFile)]) 4
     = Panicked nil_dereference.
Proof.
  assert (Hdumped : Forall archivable dumped_intents) by (repeat constructor).
  split; [|split].
  - apply (proj1 (@NewPrelude_accepts_archive_metadata_only version_0_1
                    dumped_intents 4)).
    exact Hdumped.
  - apply (proj2 (@NewPrelude_accepts_archive_metadata_only version_0_1 _ 4)
             dumped_intents (ManagedIntent.mk "db3" "c4" (Some OtherFile))
             [ManagedIntent.mk "db3" "c5" None] eq_refl Hdumped).
    intros Hbad. exact Hbad.
  - apply (proj2 (@NewPrelude_accepts_archive_metadata_only version_0_1 _ 4)
             dumped_intents
             (ManagedIntent.mk "db3" "c4" (Some (ArchiveMetadata None)))
             [ManagedIntent.mk "db3" "c5" (Some OtherFile)] eq_refl Hdumped).
    intros Hbad. exact Hbad.
Defined.

Lemma NewPrelude_contents_witness :
  exists p,
    @NewPrelude version_0_1 dumped_intents 4 = Returned (Ok p)
    /\ Prelude.NamespaceMetadatas p
       = [CollectionMetadata.mk "db1" "c1" "{}" 0;
          CollectionMetadata.mk "db2" "c3" "" 0;
          CollectionMetadata.mk "db1" "c2" "" 0]
    /\ Prelude.DBS p = ["db1"; "db2"].
Proof.
  eexists. split; [reflexivity|].
  destruct (@NewPrelude_contents version_0_1 dumped_intents 4 _ eq_refl)
    as (_ & Hflat & _ & _ & Hdbs & _).
  split; [exact Hflat|exact Hdbs].
Defined.

Lemma NewPrelude_sizes_zero_witness :
  exists p,
    @NewPrelude version_0_1 dumped_intents 4 = Returned (Ok p)
    /\ PreludeExplorer.Size (PreludeExplorer.mk p "db1" "c1" false) = 0.
Proof.
  eexists. split; [reflexivity|].
  eapply (@NewPrelude_sizes_zero version_0_1 dumped_intents 4); reflexivity.
Defined.

(** ** Looking up what AddMetadata stored *)

Lemma of_database_app (db : string) (l l' : list CollectionMetadata.t) :
  of_database db (l ++ l') = of_database db l ++ of_database db l'.
Proof. unfold of_database. apply filter_app. Qed.

Lemma of_database_cons_same (db : string) (cm : CollectionMetadata.t)
    (l : list CollectionMetadata.t) :
  CollectionMetadata.Database cm = db ->
  of_database db (cm :: l) = cm :: of_database db l.
Proof. intros Hdb. unfold of_database. now rewrite filter_cons_True. Qed.

Lemma other_collections (db c : string) (l : list CollectionMetadata.t) :
  Forall (fun cm => ~ of_namespace db c cm) l ->
  Forall (fun cm => CollectionMetadata.Collection cm <> c) (of_database db l).
Proof.
  intros Hl. apply Forall_forall. intros cm Hcm.
  unfold of_database in Hcm. apply list_elem_of_filter in Hcm as [Hdb Hin].
  rewrite Forall_forall in Hl. intros Hc. apply (Hl cm Hin). now split.
Qed.

Lemma AddMetadatas_index (p0 : Prelude.t) (cms : list CollectionMetadata.t)
    (db : string) :
  holds_nothing p0 ->
  Prelude.index (Prelude.NamespaceMetadatasByDB (Prelude.AddMetadatas p0 cms)) db
  = group_of db cms.
Proof.
  intros Hempty.
  destruct (AddMetadatas_dual_view cms p0 (holds_nothing_dual_view p0 Hempty))
    as [Hidx _].
  rewrite (Hidx db), AddMetadatas_flat.
  now destruct Hempty as (_ & -> & _).
Qed.

Lemma AddMetadatas_DBS (p0 : Prelude.t) (cms : list CollectionMetadata.t) :
  holds_nothing p0 ->
  Prelude.DBS (Prelude.AddMetadatas p0 cms)
  = first_seen (map CollectionMetadata.Database cms).
Proof.
  intros Hempty.
  destruct (AddMetadatas_dual_view cms p0 (holds_nothing_dual_view p0 Hempty))
    as [_ Hdbs].
  rewrite Hdbs, AddMetadatas_flat.
  now destruct Hempty as (_ & -> & _).
Qed.

(** X4.  What [AddMetadata] stored, [Open] finds: on a Prelude built by
    [AddMetadata] from the records [cms], a read-side accessor for a
    namespace with a non-empty collection opens with the metadata text
    of the first record of [cms] of that namespace; it fails with the
    no-such-file error, unchanged, when the collection is empty or no
    record of [cms] is of that namespace. *)
Theorem Open_finds_added_record (p0 : Prelude.t) (cms : list CollectionMetadata.t)
    (intent : Intent.t) (buffer : option string) :
  holds_nothing p0 ->
  let p := Prelude.AddMetadatas p0 cms in
  let mpf := MetadataPreludeFile.mk intent p buffer in
  (forall before cm after,
     Intent.C intent <> "" ->
     cms = before ++ cm :: after ->
     of_namespace (Intent.DB intent) (Intent.C intent) cm ->
     Forall (fun x => ~ of_namespace (Intent.DB intent) (Intent.C intent) x) before ->
     MetadataPreludeFile.Open mpf
     = (MetadataPreludeFile.mk intent p (Some (CollectionMetadata.Metadata cm)),
        None))
  /\ (Intent.C intent = ""
      \/ Forall (fun x => ~ of_namespace (Intent.DB intent) (Intent.C intent) x) cms ->
      MetadataPreludeFile.Open mpf = (mpf, Some "so such file")).
Proof.
  intros Hempty p mpf.
  assert (Hidx : Prelude.index (Prelude.NamespaceMetadatasByDB p) (Intent.DB intent)
                 = group_of (Intent.DB intent) cms)
    by (now apply AddMetadatas_index).
  split.
  - intros before cm after Hc -> [Hdb Hcoll] Hbefore.
    unfold MetadataPreludeFile.Open. cbn [MetadataPreludeFile.Intent
      MetadataPreludeFile.Prelude mpf].
    apply eqb_empty_false in Hc. rewrite Hc, Hidx. unfold group_of.
    rewrite of_database_app, (of_database_cons_same _ cm after Hdb).
    destruct (of_database (Intent.DB intent) before
              ++ cm :: of_database (Intent.DB intent) after) eqn:Hg;
      [now destruct (of_database (Intent.DB intent) before)|].
    rewrite <- Hg. apply Open_loop_hit; [|exact Hcoll].
    now apply other_collections.
  - intros Hnone. unfold MetadataPreludeFile.Open. cbn [MetadataPreludeFile.Intent
      MetadataPreludeFile.Prelude mpf].
    destruct (String.eqb (Intent.C intent) "") eqn:Hc; [reflexivity|].
    destruct Hnone as [Hempty_c|Hnone];
      [apply eqb_empty_true in Hempty_c; congruence|].
    rewrite Hidx. unfold group_of.
    destruct (of_database (Intent.DB intent) cms) eqn:Hg; [reflexivity|].
    rewrite <- Hg. apply Open_loop_miss.
    now apply other_collections.
Qed.

Lemma Open_finds_added_record_witness :
  MetadataPreludeFile.Open
    (MetadataPreludeFile.mk (Intent.mk "db1" "c2") tree_prelude None)
  = (MetadataPreludeFile.mk (Intent.mk "db1" "c2") tree_prelude (Some ""), None)
  /\ MetadataPreludeFile.Open
       (MetadataPreludeFile.mk (Intent.mk "db2" "c1") tree_prelude None)
     = (MetadataPreludeFile.mk (Intent.mk "db2" "c1") tree_prelude None,
        Some "so such file").
Proof.
  assert (Hempty : holds_nothing Prelude.empty) by (repeat split).
  split.
  - destruct (Open_finds_added_record Prelude.empty
                [CollectionMetadata.mk "db1" "c1" "{}" 10;
                 CollectionMetadata.mk "db2" "c3" "" 20;
                 CollectionMetadata.mk "db1" "c2" "" 30]
                (Intent.mk "db1" "c2") None Hempty) as [Hhit _].
    apply (Hhit [CollectionMetadata.mk "db1" "c1" "{}" 10;
                 CollectionMetadata.mk "db2" "c3" "" 20]
             (CollectionMetadata.mk "db1" "c2" "" 30) []).
    + discriminate.
    + reflexivity.
    + split; reflexivity.
    + repeat constructor; intros [Hdb Hc]; discriminate.
  - destruct (Open_finds_added_record Prelude.empty
                [CollectionMetadata.mk "db1" "c1" "{}" 10;
                 CollectionMetadata.mk "db2" "c3" "" 20;
                 CollectionMetadata.mk "db1" "c2" "" 30]
                (Intent.mk "db2" "c1") None Hempty) as [_ Hmiss].
    apply Hmiss. right.
    repeat constructor; intros [Hdb Hc]; discriminate.
Defined.

(** ** Walking the tree *)

Lemma ReadDir_top (pe : PreludeExplorer.t) :
  PreludeExplorer.collection pe = "" ->
  PreludeExplorer.database pe = "" ->
  PreludeExplorer.ReadDir pe
  = Ok (flat_map (listing (PreludeExplorer.prelude pe) "")
          (Prelude.index_or_nil
             (Prelude.NamespaceMetadatasByDB (PreludeExplorer.prelude pe)) "")
        ++ map (directory (PreludeExplorer.prelude pe))
             (Prelude.DBS (PreludeExplorer.prelude pe))).
Proof.
  intros Hc Hd. unfold PreludeExplorer.ReadDir, PreludeExplorer.IsDir,
    Prelude.index_or_nil.
  rewrite Hc, Hd; simpl.
  destruct (Prelude.index _ "");
    rewrite database_entries_directories; [|reflexivity].
  now rewrite namespace_entries_listing.
Qed.

Lemma listing_entry (p : Prelude.t) (db : string) (ns : CollectionMetadata.t)
    (e : PreludeExplorer.t) :
  e ∈ listing p db ns ->
  PreludeExplorer.prelude e = p
  /\ PreludeExplorer.database e = db
  /\ PreludeExplorer.collection e = CollectionMetadata.Collection ns.
Proof.
  unfold listing. rewrite elem_of_cons.
  intros [->|He]; [now repeat split|].
  destruct (String.eqb (CollectionMetadata.Metadata ns) "");
    [now apply elem_of_nil in He|].
  apply list_elem_of_singleton in He as ->. now repeat split.
Qed.

(** what [ReadDir] lists: entries over the same Prelude; files and
    entries of a database directory keep the directory's database *)
Lemma ReadDir_entry (pe e : PreludeExplorer.t) (entries : list PreludeExplorer.t) :
  PreludeExplorer.ReadDir pe = Ok entries ->
  e ∈ entries ->
  PreludeExplorer.prelude e = PreludeExplorer.prelude pe
  /\ (PreludeExplorer.database e = PreludeExplorer.database pe
      \/ (PreludeExplorer.database pe = ""
          /\ e = directory (PreludeExplorer.prelude pe) (PreludeExplorer.database e)
          /\ PreludeExplorer.database e ∈ Prelude.DBS (PreludeExplorer.prelude pe)))
  /\ (PreludeExplorer.database pe <> "" ->
      is_Some (Prelude.index
                 (Prelude.NamespaceMetadatasByDB (PreludeExplorer.prelude pe))
                 (PreludeExplorer.database pe))).
Proof.
  intros Hread He.
  destruct (String.eqb (PreludeExplorer.collection pe) "") eqn:Hc;
    [|unfold PreludeExplorer.ReadDir, PreludeExplorer.IsDir in Hread;
      rewrite Hc in Hread; discriminate Hread].
  apply eqb_empty_true in Hc.
  destruct (decide (PreludeExplorer.database pe = "")) as [Hd|Hd].
  - rewrite (ReadDir_top pe Hc Hd) in Hread. injection Hread as <-.
    apply elem_of_app in He as [He|He].
    + apply list_elem_of_In, in_flat_map in He as (ns & _ & He).
      apply list_elem_of_In, listing_entry in He as (Hp & Hdb & _).
      split; [exact Hp|]. split; [left; congruence|]. intros Hne. now elim Hne.
    + apply list_elem_of_fmap in He as (db & -> & Hdb).
      split; [reflexivity|]. split; [|intros Hne; now elim Hne].
      right. now repeat split.
  - unfold PreludeExplorer.ReadDir, PreludeExplorer.IsDir in Hread.
    rewrite Hc in Hread. cbn [negb] in Hread.
    pose proof Hd as Hd'. apply eqb_empty_false in Hd'. rewrite Hd' in Hread.
    destruct (Prelude.index _ (PreludeExplorer.database pe)) as [g|] eqn:Hg;
      [|discriminate Hread].
    injection Hread as <-. rewrite namespace_entries_listing in He.
    cbn [app] in He.
    apply list_elem_of_In, in_flat_map in He as (ns & _ & He).
    apply list_elem_of_In, listing_entry in He as (Hp & Hdb & _).
    split; [exact Hp|]. split; [now left|]. intros _. now eexists.
Qed.

(** X5.  On a Prelude built by [AddMetadata] from the records [cms], the
    directory of a database with a non-empty name can be listed exactly
    when some record of [cms] has that database; its listing then goes
    through the records of that database in the order they were added,
    each giving its data entry and, if its metadata text is not empty,
    its metadata entry.  Otherwise [ReadDir] fails with the
    no-such-directory error. *)
Theorem ReadDir_database_of_records (p0 : Prelude.t)
    (cms : list CollectionMetadata.t) (db : string) :
  holds_nothing p0 ->
  db <> "" ->
  let p := Prelude.AddMetadatas p0 cms in
  PreludeExplorer.ReadDir (directory p db)
  = if decide (db ∈ map CollectionMetadata.Database cms)
    then Ok (flat_map (listing p db) (of_database db cms))
    else Err "no such directory".
Proof.
  intros Hempty Hdb p.
  pose proof (AddMetadatas_index p0 cms db Hempty) as Hidx. fold p in Hidx.
  destruct (decide (db ∈ map CollectionMetadata.Database cms)) as [Hin|Hout].
  - destruct (group_of db cms) as [g|] eqn:Hg;
      [|apply group_of_None in Hg; contradiction].
    rewrite (ReadDir_database (directory p db) g); try assumption; try reflexivity.
    cbn [PreludeExplorer.prelude PreludeExplorer.database directory].
    now apply group_of_Some in Hg as [-> _].
  - apply ReadDir_no_such_directory; [reflexivity|exact Hdb|].
    cbn [PreludeExplorer.prelude PreludeExplorer.database directory].
    rewrite Hidx. now apply group_of_None.
Qed.

Lemma ReadDir_database_of_records_witness :
  PreludeExplorer.ReadDir (directory tree_prelude "db2")
  = Ok [PreludeExplorer.mk tree_prelude "db2" "c3" false]
  /\ PreludeExplorer.ReadDir (directory tree_prelude "db3")
     = Err "no such directory".
Proof.
  assert (Hempty : holds_nothing Prelude.empty) by (repeat split).
  unfold tree_prelude. split.
  - rewrite (ReadDir_database_of_records Prelude.empty
               [CollectionMetadata.mk "db1" "c1" "{}" 10;
                CollectionMetadata.mk "db2" "c3" "" 20;
                CollectionMetadata.mk "db1" "c2" "" 30] "db2" Hempty);
      [reflexivity|discriminate].
  - rewrite (ReadDir_database_of_records Prelude.empty
               [CollectionMetadata.mk "db1" "c1" "{}" 10;
                CollectionMetadata.mk "db2" "c3" "" 20;
                CollectionMetadata.mk "db1" "c2" "" 30] "db3" Hempty);
      [reflexivity|discriminate].
Defined.

(** X6.  No entry of the tree dangles: on a Prelude built by
    [AddMetadata], every entry reached from the root by [ReadDir], at
    any depth, is over the same Prelude; if it is a directory its
    [ReadDir] succeeds, and if it is a file its [ReadDir] fails with the
    not-a-directory error.  A walk from the root never meets the
    no-such-directory error. *)
Theorem reachable_entries_listable (p0 : Prelude.t)
    (cms : list CollectionMetadata.t) (e : PreludeExplorer.t) :
  holds_nothing p0 ->
  reachable (Prelude.AddMetadatas p0 cms) e ->
  PreludeExplorer.prelude e = Prelude.AddMetadatas p0 cms
  /\ (PreludeExplorer.IsDir e = true ->
      exists entries, PreludeExplorer.ReadDir e = Ok entries)
  /\ (PreludeExplorer.IsDir e = false ->
      PreludeExplorer.ReadDir e = Err "not a directory").
Proof.
  intros Hempty Hreach. set (p := Prelude.AddMetadatas p0 cms) in *.
  assert (Hinv : PreludeExplorer.prelude e = p
                 /\ (PreludeExplorer.database e = ""
                     \/ is_Some (Prelude.index (Prelude.NamespaceMetadatasByDB p)
                                   (PreludeExplorer.database e)))).
  { induction Hreach as [|pe e entries _ [IHp IHd] Hread He].
    - split; [reflexivity|now left].
    - destruct (ReadDir_entry pe e entries Hread He) as (Hp & Hdb & Hidx).
      rewrite IHp in Hp, Hdb, Hidx. split; [exact Hp|].
      destruct Hdb as [Hdb|(_ & _ & Hdb)].
      + rewrite Hdb. destruct IHd as [IHd|IHd]; [now left|now right].
      + right. unfold p in Hdb |- *.
        rewrite (AddMetadatas_DBS p0 cms Hempty) in Hdb.
        rewrite (AddMetadatas_index p0 cms _ Hempty).
        apply (proj1 (first_seen_elem _ _)) in Hdb.
        destruct (group_of (PreludeExplorer.database e) cms) eqn:Hg;
          [now eexists|].
        apply group_of_None in Hg. destruct (Hg Hdb). }
  destruct Hinv as [Hp Hd]. split; [exact Hp|]. split.
  - intros Hdir. unfold PreludeExplorer.IsDir in Hdir.
    apply eqb_empty_true in Hdir.
    destruct (decide (PreludeExplorer.database e = "")) as [Hroot|Hdb].
    + eexists. now apply ReadDir_top.
    + destruct Hd as [Hd|[g Hg]]; [contradiction|].
      exists (flat_map (listing (PreludeExplorer.prelude e)
                          (PreludeExplorer.database e)) g).
      apply ReadDir_database; try assumption. now rewrite Hp.
  - apply ReadDir_not_a_directory.
Qed.

Lemma reachable_entries_listable_witness :
  PreludeExplorer.prelude (PreludeExplorer.mk tree_prelude "db1" "c1" true)
  = tree_prelude
  /\ (PreludeExplorer.IsDir (PreludeExplorer.mk tree_prelude "db1" "c1" true) = true ->
      exists entries,
        PreludeExplorer.ReadDir (PreludeExplorer.mk tree_prelude "db1" "c1" true)
        = Ok entries)
  /\ (PreludeExplorer.IsDir (PreludeExplorer.mk tree_prelude "db1" "c1" true) = false ->
      PreludeExplorer.ReadDir (PreludeExplorer.mk tree_prelude "db1" "c1" true)
      = Err "not a directory").
Proof.
  apply (reachable_entries_listable Prelude.empty
           [CollectionMetadata.mk "db1" "c1" "{}" 10;
            CollectionMetadata.mk "db2" "c3" "" 20;
            CollectionMetadata.mk "db1" "c2" "" 30]).
  - repeat split.
  - apply (reachable_entry _ (directory tree_prelude "db1")
             (PreludeExplorer.mk tree_prelude "db1" "c1" true)
             [PreludeExplorer.mk tree_prelude "db1" "c1" false;
              PreludeExplorer.mk tree_prelude "db1" "c1" true;
              PreludeExplorer.mk tree_prelude "db1" "c2" false]).
    + apply (reachable_entry _ (PreludeExplorer.NewPreludeExplorer tree_prelude)
               (directory tree_prelude "db1")
               [directory tree_prelude "db1"; directory tree_prelude "db2"]).
      * apply reachable_root.
      * reflexivity.
      * apply elem_of_cons. now left.
    + reflexivity.
    + apply elem_of_cons. right. apply elem_of_cons. now left.
Defined.

(** X7.  [Parent] leads back up the tree: for every entry that [ReadDir]
    of a directory lists, a file (non-empty collection) has as parent the
    directory entry of the listing directory's database over the same
    Prelude, which is the listing directory itself when that one is not
    flagged as metadata; an entry with an empty collection has the root
    as parent.  The parent of any entry is a directory, and the parent of
    a parent is always the root. *)
Theorem Parent_of_listed_entry (pe e : PreludeExplorer.t)
    (entries : list PreludeExplorer.t) :
  PreludeExplorer.ReadDir pe = Ok entries ->
  e ∈ entries ->
  (PreludeExplorer.collection e <> "" ->
   PreludeExplorer.Parent e
   = directory (PreludeExplorer.prelude pe) (PreludeExplorer.database pe)
   /\ (PreludeExplorer.isMetadata pe = false -> PreludeExplorer.Parent e = pe))
  /\ (PreludeExplorer.collection e = "" ->
      PreludeExplorer.Parent e
      = PreludeExplorer.NewPreludeExplorer (PreludeExplorer.prelude pe))
  /\ PreludeExplorer.IsDir (PreludeExplorer.Parent e) = true
  /\ PreludeExplorer.Parent (PreludeExplorer.Parent e)
     = PreludeExplorer.NewPreludeExplorer (PreludeExplorer.prelude pe).
Proof.
  intros Hread He.
  destruct (ReadDir_entry pe e entries Hread He) as (Hp & Hdb & _).
  assert (Hc : PreludeExplorer.collection pe = "").
  { unfold PreludeExplorer.ReadDir, PreludeExplorer.IsDir in Hread.
    destruct (String.eqb (PreludeExplorer.collection pe) "") eqn:Hc;
      [now apply eqb_empty_true|discriminate Hread]. }
  split; [|split; [|split]].
  - intros Hfile.
    assert (Hsame : PreludeExplorer.database e = PreludeExplorer.database pe).
    { destruct Hdb as [Hdb|(_ & Hdir & _)]; [exact Hdb|].
      rewrite Hdir in Hfile. now elim Hfile. }
    assert (Hparent : PreludeExplorer.Parent e
                      = directory (PreludeExplorer.prelude pe)
                          (PreludeExplorer.database pe)).
    { unfold PreludeExplorer.Parent. apply eqb_empty_false in Hfile.
      now rewrite Hfile, Hp, Hsame. }
    split; [exact Hparent|].
    intros Hflag. rewrite Hparent. destruct pe as [p db c m].
    cbn in Hc, Hflag |- *. now subst.
  - intros Hdir. unfold PreludeExplorer.Parent. apply eqb_empty_true in Hdir.
    now rewrite Hdir, Hp.
  - unfold PreludeExplorer.Parent, PreludeExplorer.IsDir.
    now destruct (String.eqb (PreludeExplorer.collection e) "").
  - unfold PreludeExplorer.Parent.
    destruct (String.eqb (PreludeExplorer.collection e) ""); cbn; now rewrite Hp.
Qed.

Lemma Parent_of_listed_entry_witness :
  PreludeExplorer.Parent (PreludeExplorer.mk tree_prelude "db1" "c1" true)
  = directory tree_prelude "db1"
  /\ PreludeExplorer.Parent (PreludeExplorer.Parent
                               (PreludeExplorer.mk tree_prelude "db1" "c1" true))
     = PreludeExplorer.NewPreludeExplorer tree_prelude.
Proof.
  destruct (Parent_of_listed_entry (directory tree_prelude "db1")
              (PreludeExplorer.mk tree_prelude "db1" "c1" true)
              [PreludeExplorer.mk tree_prelude "db1" "c1" false;
               PreludeExplorer.mk tree_prelude "db1" "c1" true;
               PreludeExplorer.mk tree_prelude "db1" "c2" false])
    as (Hfile & _ & _ & Hroot).
  - reflexivity.
  - apply elem_of_cons. right. apply elem_of_cons. now left.
  - split; [|exact Hroot]. now apply Hfile.
Defined.

(** ** The start of Prelude.Read *)

Section ReadStart.
Context {consts : ArchiveConsts} {codec : BSON}.

Lemma uint32_int32 (v : Z) : 0 <= v < 2 ^ 32 -> uint32 (int32 v) = v.
Proof.
  intros Hv. unfold uint32, int32.
  change (2 ^ 32) with 4294967296 in *. change (2 ^ 31) with 2147483648.
  destruct (Z_lt_ge_dec v 2147483648) as [Hlow|Hhigh].
  - rewrite (Z.mod_small (v + 2147483648)) by lia.
    rewrite Z.mod_small; lia.
  - replace ((v + 2147483648) mod 4294967296) with (v - 2147483648)
      by (apply (Z.mod_unique _ _ 1); lia).
    symmetry. apply (Z.mod_unique _ _ (-1)); lia.
Qed.

Lemma four_bytes_by_value (b0 b1 b2 b3 c0 c1 c2 c3 : Z) :
  is_byte b0 -> is_byte b1 -> is_byte b2 -> is_byte b3 ->
  is_byte c0 -> is_byte c1 -> is_byte c2 -> is_byte c3 ->
  le_value [b0; b1; b2; b3] = le_value [c0; c1; c2; c3] ->
  [b0; b1; b2; b3] = [c0; c1; c2; c3].
Proof.
  unfold is_byte. cbn [le_value]. intros.
  assert (b0 = c0) by lia. assert (b1 = c1) by lia.
  assert (b2 = c2) by lia. assert (b3 = c3) by lia.
  congruence.
Qed.

Lemma magic_check (b0 b1 b2 b3 : Z) :
  is_int32 MagicNumber ->
  is_byte b0 -> is_byte b1 -> is_byte b2 -> is_byte b3 ->
  magicNumberOf [b0; b1; b2; b3] = MagicNumber
  <-> [b0; b1; b2; b3] = magicNumberBytes.
Proof.
  intros Hmagic H0 H1 H2 H3. split.
  - intros Hread. rewrite magicNumberOf_le_value in Hread by assumption.
    pose proof magicNumberBytes_is_byte as Hbytes.
    pose proof magicNumberBytes_le_value as Hvalue.
    unfold magicNumberBytes in Hbytes, Hvalue |- *. cbn [map] in Hbytes, Hvalue |- *.
    apply Forall_cons in Hbytes as [Hc0 Hbytes].
    apply Forall_cons in Hbytes as [Hc1 Hbytes].
    apply Forall_cons in Hbytes as [Hc2 Hbytes].
    apply Forall_cons in Hbytes as [Hc3 _].
    apply four_bytes_by_value; try assumption.
    rewrite Hvalue, <- Hread. symmetry. apply uint32_int32.
    unfold is_byte in *. cbn [le_value]. lia.
  - intros ->. now apply magicNumberOf_magicNumberBytes.
Qed.

(** X8.  [Read] lets through exactly the magic bytes that [Write] puts
    first: when the magic number is an [int32], a stream of at least four
    bytes goes on to the block parser, with the index reset if it was not
    nil, if its first four bytes are the four bytes [Write] emits, and is
    refused with the not-an-archive error, the Prelude untouched, if they
    are any other four bytes. *)
Theorem Read_accepts_written_magic (p : Prelude.t) (b0 b1 b2 b3 : Z)
    (rest : bytes) :
  is_int32 MagicNumber ->
  is_byte b0 -> is_byte b1 -> is_byte b2 -> is_byte b3 ->
  Read p (b0 :: b1 :: b2 :: b3 :: rest)
  = if decide ([b0; b1; b2; b3] = magicNumberBytes) then
      Parser.ReadBlock preludeParserConsumer rest
        match Prelude.NamespaceMetadatasByDB p with
        | Some _ =>
            Prelude.mk (Prelude.Header p) (Prelude.DBS p)
              (Prelude.NamespaceMetadatas p) (Some ∅)
        | None => p
        end
    else
      (p, rest, Some "stream or file does not apear to be a mongodump archive").
Proof.
  intros Hmagic H0 H1 H2 H3. rewrite Read_four_bytes.
  pose proof (magic_check b0 b1 b2 b3 Hmagic H0 H1 H2 H3) as Hcheck.
  destruct (decide ([b0; b1; b2; b3] = magicNumberBytes)) as [Heq|Hne].
  - apply Hcheck in Heq. apply Z.eqb_eq in Heq. now rewrite Heq.
  - destruct (magicNumberOf [b0; b1; b2; b3] =? MagicNumber) eqn:Heq;
      [|reflexivity].
    apply Z.eqb_eq, Hcheck in Heq. contradiction.
Qed.

(** X9.  A stream that ends before its fourth byte: [Read] returns the
    error of [io.ReadAtLeast], end-of-file if the stream is empty and
    unexpected end-of-file if it holds one to three bytes, has used the
    stream up, and leaves the Prelude as it was, index included. *)
Theorem Read_short_stream (p : Prelude.t) (input : bytes) :
  (length input < 4)%nat ->
  Read p input
  = (p, [], Some match input with
                 | [] => "EOF"
                 | _ => "unexpected EOF"
                 end).
Proof.
  intros Hshort.
  destruct input as [|b0 [|b1 [|b2 [|b3 input]]]]; try reflexivity.
  cbn [length] in Hshort. lia.
Qed.

End ReadStart.

Lemma Read_accepts_written_magic_witness :
  @Read mongodump_consts BSONDocument.codec sized_prelude [109; 226; 153; 129; 7]
  = @Parser.ReadBlock mongodump_consts _ (@preludeParserConsumer BSONDocument.codec) [7]
      (Prelude.mk (Prelude.Header sized_prelude) (Prelude.DBS sized_prelude)
         (Prelude.NamespaceMetadatas sized_prelude) (Some ∅))
  /\ @Read mongodump_consts BSONDocument.codec sized_prelude [109; 226; 153; 128; 7]
     = (sized_prelude, [7],
        Some "stream or file does not apear to be a mongodump archive").
Proof.
  split.
  - rewrite (@Read_accepts_written_magic mongodump_consts BSONDocument.codec);
      [reflexivity|unfold is_int32; simpl; lia
      |unfold is_byte; lia|unfold is_byte; lia|unfold is_byte; lia
      |unfold is_byte; lia].
  - rewrite (@Read_accepts_written_magic mongodump_consts BSONDocument.codec);
      [reflexivity|unfold is_int32; simpl; lia
      |unfold is_byte; lia|unfold is_byte; lia|unfold is_byte; lia
      |unfold is_byte; lia].
Defined.

Lemma Read_short_stream_witness :
  @Read mongodump_consts BSONDocument.codec sized_prelude [109; 226; 153]
  = (sized_prelude, [], Some "unexpected EOF").
Proof.
  apply (@Read_short_stream mongodump_consts BSONDocument.codec sized_prelude
           [109; 226; 153]).
  cbn [length]. lia.
Defined.

(** ** Prelude.Write when a document cannot be marshalled *)

Section MarshalFailure.
Context {consts : ArchiveConsts} {codec : BSON} {W : Type} {writer : Writer W}.

(** X10.  [Write] marshals each document only when its turn comes, so a
    document that cannot be marshalled leaves a truncated archive in the
    sink.  Take the header and then the records in sequence order, and
    let the first one whose [bson.Marshal] fails, with error [err], come
    after the documents [docs]: then [Write] writes the magic bytes and
    [docs], in order, and returns [err], or the error of the first of
    these writes that fails; it writes nothing after that, no terminator
    either. *)
Theorem Write_marshal_failure (p : Prelude.t) (docs : list (list Z))
    (err : error) (later : list (result bytes)) (out : W) :
  Marshal_Header (Prelude.Header p)
    :: map Marshal_CollectionMetadata (Prelude.NamespaceMetadatas p)
  = map Ok docs ++ Err err :: later ->
  Write p out
  = match emit out (magicNumberBytes :: docs) with
    | (out, Some e) => (out, Some e)
    | (out, None) => (out, Some err)
    end.
Proof.
  intros Hres. unfold Write. cbn [emit].
  destruct (io_Write out magicNumberBytes) as [out1 [e|]]; [reflexivity|].
  destruct docs as [|hdoc docs]; cbn [map app] in Hres;
    injection Hres as Hheader Hres; rewrite Hheader; [reflexivity|].
  cbn [emit]. destruct (io_Write out1 hdoc) as [out2 [e|]]; [reflexivity|].
  rewrite (Write_loop_marshal_failure docs err later _ out2 Hres).
  now destruct (emit out2 docs) as [out3 [e|]].
Qed.

End MarshalFailure.

Lemma Write_marshal_failure_witness :
  @Write mongodump_consts BSONDocument.codec (list Z) Buffer_Writer
    sized_prelude [1; 2]
  = ([1; 2; 109; 226; 153; 129], Some "Can't marshal nil as a BSON document").
Proof.
  apply (@Write_marshal_failure mongodump_consts BSONDocument.codec (list Z)
           Buffer_Writer sized_prelude []
           "Can't marshal nil as a BSON document"
           (map (@Marshal_CollectionMetadata BSONDocument.codec)
              (Prelude.NamespaceMetadatas sized_prelude)) [1; 2]).
  reflexivity.
Defined.

(** ** The database list and the index *)

(** X11.  [AddMetadata] decides by the index, not by the database list,
    whether a database is new.  On a Prelude whose index is the grouping
    of the records [l], a run of [AddMetadata] calls appends to the
    database list, whatever it holds, the databases of the added records
    that no record of [l] has, each once, in first-seen order.  After the
    index alone was emptied, as [Read] does, names that the list holds
    already are appended again. *)
Theorem AddMetadatas_DBS_by_index (cms l : list CollectionMetadata.t)
    (p : Prelude.t) :
  indexes p l ->
  Prelude.DBS (Prelude.AddMetadatas p cms)
  = Prelude.DBS p
    ++ filter (fun db => db ∉ map CollectionMetadata.Database l)
         (first_seen (map CollectionMetadata.Database cms)).
Proof.
  revert l p. induction cms as [|cm cms IH]; intros l p Hidx.
  - simpl. now rewrite app_nil_r.
  - rewrite AddMetadatas_cons.
    rewrite (IH (l ++ [cm]) _ (AddMetadata_indexes p l cm Hidx)).
    rewrite (AddMetadata_DBS p l cm Hidx).
    cbn [map first_seen]. rewrite filter_cons, list_filter_filter.
    assert (Hfilter :
      filter (fun db => db ∉ map CollectionMetadata.Database (l ++ [cm]))
        (first_seen (map CollectionMetadata.Database cms))
      = filter (fun db => (db ∉ map CollectionMetadata.Database l)
                          /\ db <> CollectionMetadata.Database cm)
          (first_seen (map CollectionMetadata.Database cms))).
    { apply list_filter_iff. intros db. rewrite map_app, elem_of_app.
      cbn [map]. rewrite list_elem_of_singleton. tauto. }
    rewrite Hfilter.
    destruct (decide (CollectionMetadata.Database cm
                      ∈ map CollectionMetadata.Database l)) as [Hin|Hout];
      destruct (decide (CollectionMetadata.Database cm
                        ∉ map CollectionMetadata.Database l)) as [Hout'|Hin'];
      try contradiction; try reflexivity.
    now rewrite <- app_assoc.
Qed.

Lemma AddMetadatas_DBS_by_index_witness :
  Prelude.DBS
    (Prelude.AddMetadatas (Prelude.mk None ["db1"] [] (Some ∅))
       [CollectionMetadata.mk "db1" "c1" "" 1;
        CollectionMetadata.mk "db2" "c2" "" 2;
        CollectionMetadata.mk "db1" "c3" "" 3])
  = ["db1"; "db1"; "db2"].
Proof.
  rewrite (AddMetadatas_DBS_by_index _ []); [reflexivity|].
  intros db. reflexivity.
Defined.

(** ** The parser's consumer *)

Section Consumer.
Context {consts : ArchiveConsts} {codec : BSON}.

Lemma run_callback_adds (c : callback) (p : Prelude.t) :
  exists header added,
    fst (run_callback c p)
    = Prelude.AddMetadatas
        (Prelude.mk header (Prelude.DBS p) (Prelude.NamespaceMetadatas p)
           (Prelude.NamespaceMetadatasByDB p)) added
    /\ (length added <= match c with OnBody _ => 1 | _ => 0 end)%nat.
Proof.
  destruct c as [data|data|]; cbn [run_callback HeaderBSON BodyBSON End_
    preludeParserConsumer].
  - destruct (Unmarshal_Header data Header.zero) as [header err].
    exists (Some header), []. split; [reflexivity|cbn; lia].
  - destruct (Unmarshal_CollectionMetadata data CollectionMetadata.zero)
      as [cm [err|]].
    + exists (Prelude.Header p), []. split; [now destruct p|cbn; lia].
    + exists (Prelude.Header p), [cm]. split; [now destruct p|cbn; lia].
  - exists (Prelude.Header p), []. split; [now destruct p|cbn; lia].
Qed.

Lemma run_callbacks_cons (c : callback) (cs : list callback) (p : Prelude.t) :
  run_callbacks (c :: cs) p = run_callbacks cs (fst (run_callback c p)).
Proof. reflexivity. Qed.

Lemma with_header_dual_view (p : Prelude.t) (header : option Header.t) :
  dual_view p ->
  dual_view (Prelude.mk header (Prelude.DBS p) (Prelude.NamespaceMetadatas p)
               (Prelude.NamespaceMetadatasByDB p)).
Proof. intros Hp. exact Hp. Qed.

(** X12.  The consumer that [Read] hands to the parser keeps the two
    views of the Prelude consistent through any run of callbacks,
    whatever data they are given and whether they fail or not: if the
    index was the grouping of the flat sequence and the database list its
    databases in first-seen order, they still are afterwards; the flat
    sequence has only grown at its end, by at most one record per
    [BodyBSON] call; and the database list holds no name twice. *)
Theorem consumer_keeps_dual_view (cs : list callback) (p : Prelude.t) :
  dual_view p ->
  dual_view (run_callbacks cs p)
  /\ NoDup (Prelude.DBS (run_callbacks cs p))
  /\ exists added,
       Prelude.NamespaceMetadatas (run_callbacks cs p)
       = Prelude.NamespaceMetadatas p ++ added
       /\ (length added <= body_calls cs)%nat.
Proof.
  intros Hp.
  assert (Hrun : dual_view (run_callbacks cs p)
                 /\ exists added,
                      Prelude.NamespaceMetadatas (run_callbacks cs p)
                      = Prelude.NamespaceMetadatas p ++ added
                      /\ (length added <= body_calls cs)%nat).
  { revert p Hp. induction cs as [|c cs IH]; intros p Hp.
    - split; [exact Hp|]. exists []. split; [now rewrite app_nil_r|cbn; lia].
    - rewrite !run_callbacks_cons.
      destruct (run_callback_adds c p) as (header & added & -> & Hlen).
      set (p1 := Prelude.AddMetadatas _ added).
      assert (Hp1 : dual_view p1)
        by (apply AddMetadatas_dual_view; now apply with_header_dual_view).
      destruct (IH p1 Hp1) as (Hview & more & Hflat & Hmore).
      split; [exact Hview|]. exists (added ++ more). split.
      + rewrite Hflat. unfold p1. rewrite AddMetadatas_flat.
        cbn [Prelude.NamespaceMetadatas]. now rewrite app_assoc.
      + rewrite length_app. destruct c; cbn [body_calls]; lia. }
  destruct Hrun as [Hview Hflat]. split; [exact Hview|]. split; [|exact Hflat].
  destruct Hview as [_ ->]. apply first_seen_NoDup.
Qed.

End Consumer.

Lemma consumer_keeps_dual_view_witness :
  dual_view
    (@run_callbacks BSONDocument.codec
       [OnHeader [1]; OnBody [2]; OnEnd] tree_prelude).
Proof.
  apply (@consumer_keeps_dual_view BSONDocument.codec
           [OnHeader [1]; OnBody [2]; OnEnd] tree_prelude).
  apply AddMetadatas_dual_view, holds_nothing_dual_view. repeat split.
Defined.

(** ** Names and paths of entries *)

Lemma string_app_cons (c : ascii) (a b : string) :
  (String c a ++ b)%string = String c (a ++ b).
Proof. reflexivity. Qed.

Lemma string_app_nil_r (s : string) : (s ++ "")%string = s.
Proof.
  induction s as [|c s IH]; [reflexivity|].
  now rewrite string_app_cons, IH.
Qed.

Lemma string_app_assoc (a b c : string) :
  ((a ++ b) ++ c)%string = (a ++ b ++ c)%string.
Proof.
  induction a as [|x a IH]; [reflexivity|].
  rewrite !string_app_cons. cbn [list_ascii_of_string app]. now rewrite IH.
Qed.

Lemma list_ascii_of_string_app (a b : string) :
  list_ascii_of_string (a ++ b)
  = list_ascii_of_string a ++ list_ascii_of_string b.
Proof.
  induction a as [|x a IH]; [reflexivity|].
  rewrite !string_app_cons. cbn [list_ascii_of_string app]. now rewrite IH.
Qed.

Lemma list_ascii_of_string_inj (a b : string) :
  list_ascii_of_string a = list_ascii_of_string b -> a = b.
Proof.
  intros Hab. rewrite <- (string_of_list_ascii_of_string a),
    <- (string_of_list_ascii_of_string b). now rewrite Hab.
Qed.

Lemma string_app_inv_tail (a b s : string) :
  (a ++ s)%string = (b ++ s)%string -> a = b.
Proof.
  intros Hab. apply list_ascii_of_string_inj.
  apply (f_equal list_ascii_of_string) in Hab.
  rewrite !list_ascii_of_string_app in Hab. now apply app_inv_tail in Hab.
Qed.

Lemma extensions_differ (a b : string) :
  (a ++ ".metadata.json")%string <> (b ++ ".bson")%string.
Proof.
  intros Hab. apply (f_equal list_ascii_of_string) in Hab.
  rewrite !list_ascii_of_string_app in Hab.
  apply (f_equal (@List.rev ascii)) in Hab.
  rewrite !rev_app_distr in Hab. cbn in Hab. discriminate Hab.
Qed.

Lemma slashless_cons (c : ascii) (s : string) :
  slashless (String c s) <-> Ascii.eqb c filepath.Separator = false /\ slashless s.
Proof.
  unfold slashless. cbn [list_ascii_of_string forallb].
  rewrite andb_true_iff, negb_true_iff. reflexivity.
Qed.

Lemma slashless_app (a b : string) :
  slashless a -> slashless b -> slashless (a ++ b).
Proof.
  intros Ha Hb. unfold slashless in *.
  rewrite list_ascii_of_string_app, forallb_app. now rewrite Ha, Hb.
Qed.

Lemma elements_slashless (s cur : string) :
  slashless s -> filepath.elements cur s = [(cur ++ s)%string].
Proof.
  revert cur. induction s as [|c s IH]; intros cur Hs; cbn [filepath.elements].
  - now rewrite string_app_nil_r.
  - apply slashless_cons in Hs as [Hc Hs]. rewrite Hc, (IH _ Hs).
    now rewrite string_app_assoc.
Qed.

Lemma elements_joined (a b cur : string) :
  slashless a ->
  filepath.elements cur (a ++ String filepath.Separator b)
  = (cur ++ a)%string :: filepath.elements "" b.
Proof.
  revert cur. induction a as [|c a IH]; intros cur Ha.
  - change ("" ++ String filepath.Separator b)%string
      with (String filepath.Separator b).
    cbn [filepath.elements]. rewrite Ascii.eqb_refl.
    now rewrite string_app_nil_r.
  - rewrite string_app_cons. cbn [filepath.elements].
    apply slashless_cons in Ha as [Hc Ha]. rewrite Hc, (IH _ Ha).
    now rewrite string_app_assoc.
Qed.

Lemma Clean_cons (c : ascii) (s : string) :
  filepath.Clean (String c s)
  = let rooted := Ascii.eqb c filepath.Separator in
    let out :=
      String.concat "/"
        (filepath.clean_elements rooted [] (filepath.elements "" (String c s))) in
    if rooted then ("/" ++ out)%string
    else if String.eqb out "" then "." else out.
Proof. reflexivity. Qed.

(** [filepath.Join] of two plain names puts a separator between them *)
Lemma Join_plain (a b : string) :
  slashless a -> slashless b ->
  a <> "" -> a <> "." ->
  b <> "" -> b <> "." -> b <> ".." ->
  filepath.Join a b = (a ++ "/" ++ b)%string.
Proof.
  intros Ha Hb Ha0 Ha1 Hb0 Hb1 Hb2. unfold filepath.Join.
  apply String.eqb_neq in Ha0, Ha1, Hb0, Hb1, Hb2. rewrite Ha0.
  assert (Hels : filepath.elements "" (a ++ "/" ++ b) = [a; b]).
  { change ("/" ++ b)%string with (String filepath.Separator b).
    rewrite (elements_joined a b "" Ha), (elements_slashless b "" Hb).
    reflexivity. }
  assert (Hclean : filepath.clean_elements false [] [a; b] = [a; b]).
  { cbn [filepath.clean_elements]. rewrite Ha0, Ha1. cbn [orb].
    destruct (String.eqb a ".."); rewrite ?Hb0, ?Hb1, ?Hb2; cbn [orb];
      reflexivity. }
  destruct a as [|c a]; [discriminate Ha0|].
  apply slashless_cons in Ha as [Hc Ha].
  rewrite string_app_cons, Clean_cons, <- string_app_cons.
  cbv zeta. rewrite Hc, Hels, Hclean.
  change (String.concat "/" [String c a; b])
    with (String c a ++ "/" ++ b)%string.
  now rewrite string_app_cons.
Qed.

Lemma Name_file (pe : PreludeExplorer.t) :
  PreludeExplorer.collection pe <> "" ->
  PreludeExplorer.Name pe
  = (PreludeExplorer.collection pe
     ++ if PreludeExplorer.isMetadata pe then ".metadata.json" else ".bson")%string.
Proof.
  intros Hc. unfold PreludeExplorer.Name. apply eqb_empty_false in Hc.
  rewrite Hc. now destruct (PreludeExplorer.isMetadata pe).
Qed.

Lemma file_name_plain (c : string) (metadata : bool) :
  c <> "" -> slashless c ->
  let name := (c ++ if metadata then ".metadata.json" else ".bson")%string in
  slashless name /\ name <> "" /\ name <> "." /\ name <> "..".
Proof.
  intros Hc Hslash name. split.
  - apply slashless_app; [exact Hslash|]. now destruct metadata.
  - assert (Hlen : (5 <= length (list_ascii_of_string name))%nat).
    { unfold name. rewrite list_ascii_of_string_app, length_app.
      destruct metadata; cbn; lia. }
    repeat split; intros Hname; rewrite Hname in Hlen; cbn in Hlen; lia.
Qed.

(** X13.  The path of a file in a database directory is the database,
    a separator and the file's name, when the database and the collection
    are plain names: not empty, without a separator, and the database not
    a single dot. *)
Theorem Path_of_plain_names (pe : PreludeExplorer.t) :
  slashless (PreludeExplorer.database pe) ->
  slashless (PreludeExplorer.collection pe) ->
  PreludeExplorer.database pe <> "" ->
  PreludeExplorer.database pe <> "." ->
  PreludeExplorer.collection pe <> "" ->
  PreludeExplorer.Path pe
  = (PreludeExplorer.database pe ++ "/" ++ PreludeExplorer.Name pe)%string
  /\ PreludeExplorer.Path pe
     = (PreludeExplorer.Path (PreludeExplorer.Parent pe) ++ "/"
        ++ PreludeExplorer.Name pe)%string.
Proof.
  intros Hdb Hc Hdb0 Hdb1 Hc0.
  assert (Hpath : PreludeExplorer.Path pe
                  = (PreludeExplorer.database pe ++ "/"
                     ++ PreludeExplorer.Name pe)%string).
  { rewrite (Path_joined pe Hc0 Hdb0), (Name_file pe Hc0).
    destruct (file_name_plain (PreludeExplorer.collection pe)
                (PreludeExplorer.isMetadata pe) Hc0 Hc) as (Hn & Hn0 & Hn1 & Hn2).
    now apply Join_plain. }
  split; [exact Hpath|]. rewrite Hpath. f_equal.
  unfold PreludeExplorer.Parent, PreludeExplorer.Path.
  apply eqb_empty_false in Hc0. now rewrite Hc0.
Qed.

Lemma Path_of_plain_names_witness :
  PreludeExplorer.Path (PreludeExplorer.mk tree_prelude "db1" "c1" true)
  = "db1/c1.metadata.json".
Proof.
  apply (Path_of_plain_names (PreludeExplorer.mk tree_prelude "db1" "c1" true));
    try reflexivity; discriminate.
Defined.

(** X14.  File names tell entries apart: two entries with non-empty
    collections have the same [Name] only if they have the same
    collection and are both data entries or both metadata entries.  So
    the names that [ReadDir] lists for a database directory are pairwise
    different when the records of the database have pairwise different,
    non-empty collections. *)
Theorem listed_names_distinct (pe : PreludeExplorer.t)
    (g : list CollectionMetadata.t) (entries : list PreludeExplorer.t) :
  PreludeExplorer.database pe <> "" ->
  Prelude.index (Prelude.NamespaceMetadatasByDB (PreludeExplorer.prelude pe))
    (PreludeExplorer.database pe) = Some g ->
  Forall (fun ns => CollectionMetadata.Collection ns <> "") g ->
  NoDup (map CollectionMetadata.Collection g) ->
  PreludeExplorer.ReadDir pe = Ok entries ->
  (forall e e',
     PreludeExplorer.collection e <> "" ->
     PreludeExplorer.collection e' <> "" ->
     PreludeExplorer.Name e = PreludeExplorer.Name e' ->
     PreludeExplorer.collection e = PreludeExplorer.collection e'
     /\ PreludeExplorer.isMetadata e = PreludeExplorer.isMetadata e')
  /\ NoDup (map PreludeExplorer.Name entries).
Proof.
  intros Hdb Hg Hfiles Hdistinct Hread.
  assert (Hinj : forall e e',
            PreludeExplorer.collection e <> "" ->
            PreludeExplorer.collection e' <> "" ->
            PreludeExplorer.Name e = PreludeExplorer.Name e' ->
            PreludeExplorer.collection e = PreludeExplorer.collection e'
            /\ PreludeExplorer.isMetadata e = PreludeExplorer.isMetadata e').
  { intros e e' Hc Hc' Hname.
    rewrite (Name_file e Hc), (Name_file e' Hc') in Hname.
    destruct (PreludeExplorer.isMetadata e), (PreludeExplorer.isMetadata e').
    - split; [|reflexivity]. now apply string_app_inv_tail in Hname.
    - now apply extensions_differ in Hname.
    - symmetry in Hname. now apply extensions_differ in Hname.
    - split; [|reflexivity]. now apply string_app_inv_tail in Hname. }
  split; [exact Hinj|].
  assert (Hc : PreludeExplorer.collection pe = "").
  { unfold PreludeExplorer.ReadDir, PreludeExplorer.IsDir in Hread.
    destruct (String.eqb (PreludeExplorer.collection pe) "") eqn:Hc;
      [now apply eqb_empty_true|discriminate Hread]. }
  rewrite (ReadDir_database pe g Hc Hdb Hg) in Hread. injection Hread as <-.
  set (p := PreludeExplorer.prelude pe). set (db := PreludeExplorer.database pe).
  clear Hg. induction g as [|ns g IH]; [constructor|].
  apply Forall_cons in Hfiles as [Hns Hfiles].
  cbn [map] in Hdistinct. apply NoDup_cons in Hdistinct as [Hnew Hdistinct].
  cbn [flat_map]. rewrite map_app. apply NoDup_app. split; [|split].
  - unfold listing.
    destruct (String.eqb (CollectionMetadata.Metadata ns) ""); cbn [map].
    + apply NoDup_singleton.
    + apply NoDup_cons. split; [|apply NoDup_singleton].
      rewrite list_elem_of_singleton. intros Hname.
      apply Hinj in Hname as [_ Hflag]; [discriminate Hflag|exact Hns|exact Hns].
  - intros name Hhere Hthere.
    apply list_elem_of_fmap in Hhere as (e & -> & He).
    apply list_elem_of_fmap in Hthere as (e' & Hname & He').
    apply listing_entry in He as (_ & _ & Hcoll).
    apply list_elem_of_In, in_flat_map in He' as (ns' & Hns' & He').
    apply list_elem_of_In, listing_entry in He' as (_ & _ & Hcoll').
    apply list_elem_of_In in Hns'.
    assert (Hns'0 : CollectionMetadata.Collection ns' <> "")
      by (rewrite Forall_forall in Hfiles; now apply Hfiles).
    apply Hinj in Hname as [Hsame _]; [|congruence|congruence].
    apply Hnew. rewrite <- Hcoll, Hsame, Hcoll'.
    apply list_elem_of_fmap. now exists ns'.
  - now apply IH.
Qed.

Lemma listed_names_distinct_witness :
  NoDup (map PreludeExplorer.Name
           [PreludeExplorer.mk tree_prelude "db1" "c1" false;
            PreludeExplorer.mk tree_prelude "db1" "c1" true;
            PreludeExplorer.mk tree_prelude "db1" "c2" false]).
Proof.
  apply (listed_names_distinct (directory tree_prelude "db1")
           [CollectionMetadata.mk "db1" "c1" "{}" 10;
            CollectionMetadata.mk "db1" "c2" "" 30]).
  - discriminate.
  - reflexivity.
  - repeat constructor; discriminate.
  - apply NoDup_cons. split; [|apply NoDup_singleton].
    rewrite list_elem_of_singleton. discriminate.
  - reflexivity.
Defined.
